(** * The cache-backed fetcher of the stock market dashboard

    A shallow embedding of [fetch_stock_data] (stock_dashboard.ipynb) and of
    the [stock_data] table it reads and writes, with the properties of the
    data acquisition layer proved about the embedding.

    Conventions.  Python [str] values are byte strings ([string]); the
    notebook-level objects [conn], [cursor] and the two output widgets become
    one explicit [state]; an exception is a value of [exn] carried by the
    monad [M]; calendar dates are day ordinals in [Z]. *)

From Stdlib Require Import String Ascii List ZArith NArith Bool Lia.
From Stdlib Require Import Sorting.Sorted Sorting.Permutation.
Import ListNotations.
Local Open Scope string_scope.
Local Open Scope list_scope.

(** ** Python string operations used by the fetcher *)

Module PyStr.

(** [needle in hay] for two strings. *)
Fixpoint contains (needle hay : string) : bool :=
  prefix needle hay ||
  match hay with
  | EmptyString => false
  | String _ rest => contains needle rest
  end.

(** [str.lower()] on one byte: the letters A..Z move to a..z. *)
Definition lower_ascii (c : ascii) : ascii :=
  let n := N_of_ascii c in
  if ((65 <=? n) && (n <=? 90))%N then ascii_of_N (n + 32) else c.

Fixpoint lower (s : string) : string :=
  match s with
  | EmptyString => EmptyString
  | String c rest => String (lower_ascii c) (lower rest)
  end.

(** [s.replace(old, new)] for a non-empty [old]: occurrences are taken from
    the left and do not overlap.  [skip] counts the bytes of an occurrence
    that are still to be dropped. *)
Fixpoint replace_from (old new : string) (skip : nat) (s : string) : string :=
  match s with
  | EmptyString => EmptyString
  | String c rest =>
      match skip with
      | S k => replace_from old new k rest
      | O =>
          if prefix old s
          then new ++ replace_from old new (String.length old - 1) rest
          else String c (replace_from old new 0 rest)
      end
  end.

Definition replace (old new s : string) : string := replace_from old new 0 s.

(** The removal of one trailing [suffix]; the fetcher itself never does
    this, the function serves to compare [replace] with a suffix strip. *)
Fixpoint strip_suffix (suffix s : string) : string :=
  if String.eqb suffix s then EmptyString
  else match s with
       | EmptyString => EmptyString
       | String c rest => String c (strip_suffix suffix rest)
       end.

End PyStr.

(** ** JSON bodies, exceptions and notifications *)

(** A daily series as the API sends it: date label, then field name, then
    the number as text. *)
Definition series := list (string * list (string * string)).

Inductive jvalue :=
| JStr (s : string)
| JSeries (rows : series)
| JOther.

(** A decoded JSON object; the order is the dict's iteration order. *)
Definition payload := list (string * jvalue).

(** What [requests.get(url)] followed by [response.json()] hands back:
    either call raised, or the body decoded to something that is not a
    dict, or it decoded to a dict. *)
Inductive reply :=
| NoReply
| NotObject
| Object (data : payload).

Inductive exn :=
| RequestError
| TypeError
| AttributeError
| NameError
| StopIteration
| ValueError
| OperationalError
| InvalidIndexError.

(** The messages given to [handle_error]. *)
Inductive notice :=
| RateLimited (symbol msg : string)
| ApiError (symbol msg : string)
| ProcessingFailed (symbol : string) (e : exn)
| NoData.

Inductive progress :=
| Initiating
| Processing (i n : nat) (symbol : string)
| FoundInCache (symbol : string)
| FetchingNew (symbol : string)
| Complete.

Inductive event :=
| Printed (line : progress)
| HttpGet (url : string)
| Slept (seconds : nat)
| HandleError (n : notice)
| LogException (symbol : string) (e : exn)
| LogCached (rows : nat) (symbol : string).

(** The outcome of a statement that may raise. *)
Inductive result (A : Type) :=
| Ok (a : A)
| Raise (e : exn).
Arguments Ok {A} a.
Arguments Raise {A} e.

(** The symbol a notification is about. *)
Definition notice_symbol (n : notice) : option string :=
  match n with
  | RateLimited s _ | ApiError s _ | ProcessingFailed s _ => Some s
  | NoData => None
  end.

(** ** Python dicts as association lists *)

Definition dict_get {V : Type} (k : string) (d : list (string * V)) : option V :=
  match find (fun kv => String.eqb k (fst kv)) d with
  | Some kv => Some (snd kv)
  | None => None
  end.

Definition has_key {V : Type} (k : string) (d : list (string * V)) : bool :=
  existsb (fun kv => String.eqb k (fst kv)) d.

(** [d[k] = v]: an existing key keeps its place, a new one goes last. *)
Fixpoint dict_set {V : Type} (k : string) (v : V) (d : list (string * V))
  : list (string * V) :=
  match d with
  | [] => [(k, v)]
  | (k', v') :: rest =>
      if String.eqb k k' then (k, v) :: rest else (k', v') :: dict_set k v rest
  end.

(** ** What the fetcher takes from its environment

    The API key, the numbers and timestamps of pandas with their parsers,
    the date formatting, and the remote API.  [requests_get u n] is the
    reply to the call for [u] made after [n] earlier calls. *)
Class Externals := {
  API_KEY : string;
  num : Type;
  to_numeric : string -> option num;
  timestamp : Type;
  to_datetime : string -> option timestamp;
  sql_text : timestamp -> string;
  ts_between : timestamp -> string -> string -> bool;
  strftime : Z -> string;
  requests_get : string -> nat -> reply
}.

Section Model.

Context `{Externals}.

(** ** Symbol classification and the request (lines 261-267) *)

(** The value of [func]. *)
Definition api_function (symbol : string) : string :=
  if PyStr.contains "USD" symbol || PyStr.contains "EUR" symbol then
    if PyStr.contains "USD" symbol then "DIGITAL_CURRENCY_DAILY" else "FX_DAILY"
  else "TIME_SERIES_DAILY_ADJUSTED".

(** The query parameters of [url], in the order of the f-string. *)
Definition query (symbol : string) : list (string * string) :=
  if PyStr.contains "USD" symbol || PyStr.contains "EUR" symbol then
    [ ("function", api_function symbol);
      ("symbol", PyStr.replace "-USD" "" symbol);
      ("market", "USD");
      ("apikey", API_KEY) ]
  else
    [ ("function", api_function symbol);
      ("symbol", symbol);
      ("outputsize", "full");
      ("apikey", API_KEY) ].

Fixpoint query_string (q : list (string * string)) : string :=
  match q with
  | [] => ""
  | [(k, v)] => k ++ "=" ++ v
  | (k, v) :: rest => k ++ "=" ++ v ++ "&" ++ query_string rest
  end.

Definition url (symbol : string) : string :=
  "https://www.alphavantage.co/query?" ++ query_string (query symbol).

(** ** The [stock_data] table (lines 55-68)

    One row per (symbol, date); the six value columns are nullable. *)
Record PriceBar := {
  symbol : string;
  date : string;
  open : option num;
  high : option num;
  low : option num;
  close : option num;
  volume : option num;
  adjusted_close : option num
}.

(** The primary key and its order: text compared byte by byte, symbol
    first. *)
Definition key (r : PriceBar) : string * string := (symbol r, date r).

Definition key_compare (a b : string * string) : comparison :=
  match String.compare (fst a) (fst b) with
  | Eq => String.compare (snd a) (snd b)
  | c => c
  end.

(** SQLite keeps [PRIMARY KEY (symbol, date)] as a unique index in key
    order; the table is modelled by that index, a list of rows strictly
    ascending by key. *)
Definition table := list PriceBar.

(** [INSERT OR REPLACE] of one row: the row with the same key, if any,
    gives way to the new one. *)
Fixpoint insert_or_replace (r : PriceBar) (t : table) : table :=
  match t with
  | [] => [r]
  | x :: rest =>
      match key_compare (key r) (key x) with
      | Lt => r :: t
      | Eq => r :: rest
      | Gt => x :: insert_or_replace r rest
      end
  end.

(** [executemany] of the statement over the rows of a frame. *)
Definition upsert (rows : list PriceBar) (t : table) : table :=
  fold_left (fun acc r => insert_or_replace r acc) rows t.

(** [SELECT * FROM stock_data WHERE symbol = 's' AND date BETWEEN 'a' AND
    'b'], for a symbol that the text can carry between its quotes (see
    [sql_safe] below); the dates are compared as text.  The statement has
    no ORDER BY: the rows come in the order of the scan of the primary
    key's index, which is the order of the list. *)
Definition in_range (s a b : string) (r : PriceBar) : bool :=
  String.eqb (symbol r) s && String.leb a (date r) && String.leb (date r) b.

Definition read_sql (t : table) (s a b : string) : list PriceBar :=
  filter (in_range s a b) t.

(** ** State and the exception monad *)

Record state := {
  db : table;
  calls : nat;
  log : list event
}.

Definition M (A : Type) : Type := state -> result A * state.

Definition ret {A : Type} (a : A) : M A := fun st => (Ok a, st).

Definition bind {A B : Type} (c : M A) (k : A -> M B) : M B :=
  fun st =>
    match c st with
    | (Ok a, st') => k a st'
    | (Raise e, st') => (Raise e, st')
    end.

Definition raise {A : Type} (e : exn) : M A := fun st => (Raise e, st).

Definition emit (e : event) : M unit :=
  fun st => (Ok tt, {| db := db st; calls := calls st; log := log st ++ [e] |}).

Definition get_db : M table := fun st => (Ok (db st), st).

Definition put_db (t : table) : M unit :=
  fun st => (Ok tt, {| db := t; calls := calls st; log := log st |}).

End Model.

Declare Scope fetch_scope.
Delimit Scope fetch_scope with fetch.
Notation "x <- c ;; k" := (bind c (fun x => k))
  (at level 61, c at next level, right associativity) : fetch_scope.
Notation "c ;; k" := (bind c (fun _ => k))
  (at level 61, right associativity) : fetch_scope.

Local Open Scope fetch_scope.

Section Fetcher.

Context `{Externals}.

(** [handle_error(message)]: the message goes to the error widget and to
    the log file. *)
Definition handle_error (n : notice) : M unit := emit (HandleError n).

(** [time.sleep(seconds)]. *)
Definition sleep (seconds : nat) : M unit := emit (Slept seconds).

(** [requests.get(url)] and [response.json()] (lines 271-272).  A body
    that is not a dict makes the first statement that uses [data] as one
    raise, with no effect in between. *)
Definition requests_json (u : string) : M payload :=
  fun st =>
    let st' := {| db := db st; calls := S (calls st);
                  log := log st ++ [HttpGet u] |} in
    match requests_get u (calls st) with
    | NoReply => (Raise RequestError, st')
    | NotObject => (Raise TypeError, st')
    | Object data => (Ok data, st')
    end.

(** ** The call with its retries (lines 270-286) *)

(** ["Note" in data or "Error Message" in data]. *)
Definition api_signal (data : payload) : bool :=
  has_key "Note" data || has_key "Error Message" data.

(** [data.get("Note", data.get("Error Message", "Unknown API issue."))]. *)
Definition api_message (data : payload) : jvalue :=
  match dict_get "Note" data with
  | Some v => v
  | None =>
      match dict_get "Error Message" data with
      | Some v => v
      | None => JStr "Unknown API issue."
      end
  end.

(** ["premium" in msg.lower()]. *)
Definition premium (msg : string) : bool :=
  PyStr.contains "premium" (PyStr.lower msg).

(** The [for attempt in range(3)] loop over the attempts still to run;
    [data] is the body of the last attempt, the value the name holds when
    the loop is left. *)
Fixpoint api_call (u sym : string) (attempts : list nat) (data : option payload)
  : M (option payload) :=
  match attempts with
  | [] => ret data
  | _ :: later =>
      d <- requests_json u ;;
      if api_signal d then
        match api_message d with
        | JStr msg =>
            if premium msg then
              handle_error (RateLimited sym msg) ;;
              sleep 60 ;;
              api_call u sym later (Some d)
            else
              handle_error (ApiError sym msg) ;;
              ret (Some d)
        | _ => raise AttributeError
        end
      else ret (Some d)
  end.

(** ** From the body to a frame (lines 288-300) *)

(** ['Time Series' in k or 'Digital Currency' in k]. *)
Definition series_key (k : string) : bool :=
  PyStr.contains "Time Series" k || PyStr.contains "Digital Currency" k.

(** [next(iter(k for k in data if ...))]. *)
Definition find_series_key (data : payload) : option string :=
  option_map fst (find (fun kv => series_key (fst kv)) data).

(** The table of [df.rename(columns=...)]. *)
Definition column_names : list (string * string) :=
  [ ("1. open", "open"); ("2. high", "high"); ("3. low", "low");
    ("4. close", "close"); ("5. volume", "volume");
    ("1a. open (USD)", "open"); ("2a. high (USD)", "high");
    ("3a. low (USD)", "low"); ("4a. close (USD)", "close");
    ("5. adjusted close", "adjusted_close"); ("6. volume", "volume") ].

Definition rename_column (c : string) : string :=
  match dict_get c column_names with
  | Some c' => c'
  | None => c
  end.

(** One row of the frame: its index label and its cells by column. *)
Record frame_row (V : Type) := {
  index : timestamp;
  cells : list (string * V)
}.
Arguments index {V} _.
Arguments cells {V} _.

(** [df.index = pd.to_datetime(df.index)]: every label must parse. *)
Fixpoint index_to_datetime (rows : series)
  : option (list (frame_row string)) :=
  match rows with
  | [] => Some []
  | (label, fields) :: rest =>
      match to_datetime label, index_to_datetime rest with
      | Some t, Some rows' => Some ({| index := t; cells := fields |} :: rows')
      | _, _ => None
      end
  end.

Definition rename_columns (rows : list (frame_row string))
  : list (frame_row string) :=
  map (fun r => {| index := index r;
                   cells := map (fun kv => (rename_column (fst kv), snd kv))
                                (cells r) |}) rows.

(** [pd.to_numeric] over the cells of one row. *)
Fixpoint cells_to_numeric (cs : list (string * string))
  : option (list (string * num)) :=
  match cs with
  | [] => Some []
  | (c, v) :: rest =>
      match to_numeric v, cells_to_numeric rest with
      | Some x, Some rest' => Some ((c, x) :: rest')
      | _, _ => None
      end
  end.

(** [df.apply(pd.to_numeric)]: every cell of the frame must convert. *)
Fixpoint apply_to_numeric (rows : list (frame_row string))
  : option (list (frame_row num)) :=
  match rows with
  | [] => Some []
  | r :: rest =>
      match cells_to_numeric (cells r), apply_to_numeric rest with
      | Some cs, Some rest' => Some ({| index := index r; cells := cs |} :: rest')
      | _, _ => None
      end
  end.

(** [df['symbol'] = symbol] takes the place of a column of that name. *)
Definition set_symbol (rows : list (frame_row num)) : list (frame_row num) :=
  map (fun r => {| index := index r;
                   cells := filter (fun kv => negb (String.eqb (fst kv) "symbol"))
                                   (cells r) |}) rows.

(** Lines 289-300.  [from_dict] asks the value under the series key for
    its [values()]; a value that is no mapping has none. *)
Definition normalize (data : payload) : result (list (frame_row num)) :=
  match find_series_key data with
  | None => Raise StopIteration
  | Some k =>
      match dict_get k data with
      | Some (JSeries rows) =>
          match index_to_datetime rows with
          | None => Raise ValueError
          | Some df =>
              match apply_to_numeric (rename_columns df) with
              | None => Raise ValueError
              | Some df' => Ok (set_symbol df')
              end
          end
      | _ => Raise AttributeError
      end
  end.

(** The columns of the frame.  [from_dict] makes one column per field name
    of the series, in the order in which the names first appear; the
    renaming maps each name, so two fields that share a new name give two
    columns of that name; [df['symbol'] = symbol] sets the column of that
    name, or adds it last. *)
Fixpoint distinct (seen l : list string) : list string :=
  match l with
  | [] => []
  | x :: rest =>
      if existsb (String.eqb x) seen then distinct seen rest
      else x :: distinct (x :: seen) rest
  end.

Definition series_fields (rows : series) : list string :=
  distinct [] (flat_map (fun entry => map fst (snd entry)) rows).

Definition series_of (data : payload) : series :=
  match find_series_key data with
  | Some k =>
      match dict_get k data with
      | Some (JSeries rows) => rows
      | _ => []
      end
  | None => []
  end.

Definition frame_columns (data : payload) : list string :=
  let cols := map rename_column (series_fields (series_of data)) in
  if existsb (String.eqb "symbol") cols then cols else cols ++ ["symbol"].

(** The columns of a frame read from the table with [index_col='date']. *)
Definition cached_columns : list string :=
  ["symbol"; "open"; "high"; "low"; "close"; "volume"; "adjusted_close"].

(** ** The upsert of a frame (lines 302-306) *)

(** The value columns of [stock_data]; the statement names the frame's
    columns, and does not compile for a column the table lacks.  The
    names are taken as the renaming and the table spell them. *)
Definition value_columns : list string :=
  ["open"; "high"; "low"; "close"; "volume"; "adjusted_close"].

Definition known_columns (rows : list (frame_row num)) : bool :=
  forallb (fun r =>
    forallb (fun kv => existsb (String.eqb (fst kv)) value_columns) (cells r))
    rows.

(** The row the statement binds for one row of the frame. *)
Definition to_bar (sym : string) (r : frame_row num) : PriceBar :=
  {| symbol := sym;
     date := sql_text (index r);
     open := dict_get "open" (cells r);
     high := dict_get "high" (cells r);
     low := dict_get "low" (cells r);
     close := dict_get "close" (cells r);
     volume := dict_get "volume" (cells r);
     adjusted_close := dict_get "adjusted_close" (cells r) |}.

Definition to_sql (sym : string) (df : list (frame_row num)) : M unit :=
  if known_columns df then
    t <- get_db ;;
    put_db (upsert (map (to_bar sym) df) t)
  else raise OperationalError.

(** ** One symbol (lines 244-310) *)

(** [pd.date_range(start=start_str, end=end_str)]: every calendar day from
    [start] to [stop], both included. *)
Definition date_range (start stop : Z) : list Z :=
  map (fun i => (start + Z.of_nat i)%Z) (seq 0 (Z.to_nat (stop - start + 1))).

(** [all(d.strftime('%Y-%m-%d') in cached_df.index for d in date_range)]. *)
Definition has_complete_range (cached_df : list PriceBar) (start stop : Z) : bool :=
  forallb (fun d => existsb (fun r => String.eqb (strftime d) (date r)) cached_df)
          (date_range start stop).

(** What [all_data] holds for a symbol: the frame read from the cache, or
    the rows of the fresh frame that fall in the range. *)
Inductive frame :=
| Cached (rows : list PriceBar)
| Fresh (sym : string) (columns : list string) (rows : list (frame_row num)).

(** The body of the [try] block.  [Some f] stands for the assignment
    [all_data[symbol] = f], the last statement of its path; [None] for the
    [continue] of line 286. *)
Definition body (sym : string) (start stop : Z) : M (option frame) :=
  let start_str := strftime start in
  let end_str := strftime stop in
  t <- get_db ;;
  let cached_df := read_sql t sym start_str end_str in
  if has_complete_range cached_df start stop then
    emit (Printed (FoundInCache sym)) ;;
    ret (Some (Cached cached_df))
  else
    emit (Printed (FetchingNew sym)) ;;
    data <- api_call (url sym) sym (seq 0 3) None ;;
    match data with
    | None => raise NameError
    | Some d =>
        if api_signal d then ret None
        else
          match normalize d with
          | Raise e => raise e
          | Ok df =>
              to_sql sym df ;;
              emit (LogCached (List.length df) sym) ;;
              ret (Some (Fresh sym (frame_columns d)
                           (filter (fun r => ts_between (index r) start_str end_str)
                                   df)))
          end
    end.

(** [try: ... except Exception as e: ...; continue] (lines 312-315). *)
Definition try_except (sym : string) (c : M (option frame)) : M (option frame) :=
  fun st =>
    match c st with
    | (Ok r, st') => (Ok r, st')
    | (Raise e, st') =>
        (handle_error (ProcessingFailed sym e) ;;
         emit (LogException sym e) ;;
         ret None) st'
    end.

(** ** The loop over the symbols and the result (lines 232-328) *)

Fixpoint for_symbols (i n : nat) (symbols : list string) (start stop : Z)
    (all_data : list (string * frame)) : M (list (string * frame)) :=
  match symbols with
  | [] => ret all_data
  | sym :: later =>
      emit (Printed (Processing (S i) n sym)) ;;
      r <- try_except sym (body sym start stop) ;;
      for_symbols (S i) n later start stop
        (match r with
         | Some f => dict_set sym f all_data
         | None => all_data
         end)
  end.

(** [pd.concat] (line 322, outside the [try]).  Frames whose columns are
    all the same are stacked as they are; otherwise each frame is
    reindexed to the union of the columns, which pandas refuses for a
    frame with a repeated column name. *)
Definition columns_of (f : frame) : list string :=
  match f with
  | Cached _ => cached_columns
  | Fresh _ cols _ => cols
  end.

Fixpoint repeated (l : list string) : bool :=
  match l with
  | [] => false
  | x :: rest => existsb (String.eqb x) rest || repeated rest
  end.

Fixpoint same_columns (a b : list string) : bool :=
  match a, b with
  | [], [] => true
  | x :: a', y :: b' => String.eqb x y && same_columns a' b'
  | _, _ => false
  end.

Definition concat_fails (frames : list frame) : bool :=
  match frames with
  | [] => false
  | first :: _ =>
      existsb (fun f => repeated (columns_of f)) frames &&
      negb (forallb (fun f => same_columns (columns_of f) (columns_of first)) frames)
  end.

(** [None] is the Python [None]; otherwise the frames that [pd.concat]
    stacks, in the order of [all_data.values()].  Every frame has a column
    named symbol, which [set_index] (line 323) then moves into the index
    beside the dates. *)
Definition fetch_stock_data (symbols : list string) (start stop : Z)
  : M (option (list frame)) :=
  emit (Printed Initiating) ;;
  all_data <- for_symbols 0 (List.length symbols) symbols start stop [] ;;
  match all_data with
  | [] =>
      handle_error NoData ;;
      ret None
  | _ :: _ =>
      if concat_fails (map snd all_data) then raise InvalidIndexError
      else
        emit (Printed Complete) ;;
        ret (Some (map snd all_data))
  end.

(** ** Observers used to state the properties *)

(** The outcome of each symbol of a batch, in order: the frame it
    contributed, or nothing. *)
Fixpoint outcomes (i n : nat) (symbols : list string) (start stop : Z) (st : state)
  : list (string * option frame) :=
  match symbols with
  | [] => []
  | sym :: later =>
      let '(_, st1) := emit (Printed (Processing (S i) n sym)) st in
      match try_except sym (body sym start stop) st1 with
      | (Ok r, st2) => (sym, r) :: outcomes (S i) n later start stop st2
      | (Raise _, _) => []
      end
  end.


Definition is_http (e : event) : bool :=
  match e with HttpGet _ => true | _ => false end.

Definition is_sleep (e : event) : bool :=
  match e with Slept _ => true | _ => false end.

Definition is_error_for (sym : string) (e : event) : bool :=
  match e with
  | HandleError n =>
      match notice_symbol n with
      | Some s => String.eqb s sym
      | None => false
      end
  | _ => false
  end.

Definition processing_of (e : event) : option string :=
  match e with
  | Printed (Processing _ _ sym) => Some sym
  | _ => None
  end.

(** The symbols announced by the progress lines of a log, in order. *)
Fixpoint processed (evs : list event) : list string :=
  match evs with
  | [] => []
  | e :: rest =>
      match processing_of e with
      | Some sym => sym :: processed rest
      | None => processed rest
      end
  end.

End Fetcher.

Arguments index {_ V} _.
Arguments cells {_ V} _.

(** ** Notions used to state the properties *)

(** A symbol that the SELECT of line 246 carries between its quotes as it
    is: it holds no quote, which would end the literal, and no NUL. *)
Definition sql_safe (sym : string) : bool :=
  negb (PyStr.contains "'" sym) &&
  negb (PyStr.contains (String Ascii.zero EmptyString) sym).

Section Observers.

Context `{Externals}.

(** The state after [n] more calls and the events [evs], the table left as
    it is. *)
Definition advance (n : nat) (evs : list event) (st : state) : state :=
  {| db := db st; calls := n + calls st; log := log st ++ evs |}.

(** Strictly ascending keys: the invariant of the primary key's index. *)
Definition key_lt (x y : PriceBar) : Prop := key_compare (key x) (key y) = Lt.

Definition table_ok (t : table) : Prop := StronglySorted key_lt t.

(** The row stored under a key. *)
Definition key_eqb (a b : string * string) : bool :=
  String.eqb (fst a) (fst b) && String.eqb (snd a) (snd b).

Definition lookup (k : string * string) (t : table) : option PriceBar :=
  find (fun r => key_eqb k (key r)) t.

(** The table holds a row of [sym] dated [d]. *)
Definition stored (t : table) (sym d : string) : Prop :=
  exists r, In r t /\ symbol r = sym /\ date r = d.

(** Rows in strictly ascending order of their date text. *)
Definition date_lt (x y : PriceBar) : Prop := String.ltb (date x) (date y) = true.


(** [all_data] as the outcomes of a batch build it. *)
Definition store (acc : list (string * frame)) (o : string * option frame)
  : list (string * frame) :=
  match snd o with
  | Some f => dict_set (fst o) f acc
  | None => acc
  end.

Definition collect (outs : list (string * option frame)) : list (string * frame) :=
  fold_left store outs [].


(** The number of HTTP requests among some events. *)
Definition requests (evs : list event) : nat := List.length (filter is_http evs).

(** What is left of [body] once the cache is found incomplete. *)
Definition after_call (sym : string) (start stop : Z)
    (r : result (option payload) * state) : result (option frame) * state :=
  match r with
  | (Ok (Some d), st1) =>
      if api_signal d then (Ok None, st1)
      else
        match normalize d with
        | Raise e => (Raise e, st1)
        | Ok df =>
            if known_columns df then
              (Ok (Some (Fresh sym (frame_columns d)
                    (filter (fun r => ts_between (index r) (strftime start) (strftime stop))
                            df))),
               {| db := upsert (map (to_bar sym) df) (db st1);
                  calls := calls st1;
                  log := log st1 ++ [LogCached (List.length df) sym] |})
            else (Raise OperationalError, st1)
        end
  | (Ok None, st1) => (Raise NameError, st1)
  | (Raise e, st1) => (Raise e, st1)
  end.

(** The claim of a suffix strip, for comparison with the request built by
    [query]. *)
Definition base_symbol_as_suffix_strip (sym : string) : Prop :=
  dict_get "symbol" (query sym) = Some (PyStr.strip_suffix "-USD" sym).

(** One attempt and no wait among the events of a symbol. *)
Definition single_attempt_no_sleep (evs : list event) : Prop :=
  List.length (filter is_http evs) = 1%nat /\ filter is_sleep evs = [].

End Observers.

(** ** A concrete environment for the examples

    Dates are proleptic Gregorian ordinals ([date.toordinal()]), formatted
    and parsed as YYYY-MM-DD; numbers keep their decimal text; the remote
    API is a fixed script chosen by the symbol in the URL. *)
Module Demo.

Local Open Scope Z_scope.

(** Year, month and day of an ordinal. *)
Definition civil (ordinal : Z) : Z * Z * Z :=
  let z := ordinal + 305 in
  let era := z / 146097 in
  let doe := z mod 146097 in
  let yoe := (doe - doe / 1460 + doe / 36524 - doe / 146096) / 365 in
  let doy := doe - (365 * yoe + yoe / 4 - yoe / 100) in
  let mp := (5 * doy + 2) / 153 in
  let d := doy - (153 * mp + 2) / 5 + 1 in
  let m := if mp <? 10 then mp + 3 else mp - 9 in
  let y := yoe + era * 400 in
  (if m <=? 2 then y + 1 else y, m, d).

Definition ordinal_of (y m d : Z) : Z :=
  let y' := if m <=? 2 then y - 1 else y in
  let era := y' / 400 in
  let yoe := y' - era * 400 in
  let doy := (153 * (if 2 <? m then m - 3 else m + 9) + 2) / 5 + d - 1 in
  let doe := yoe * 365 + yoe / 4 - yoe / 100 + doy in
  era * 146097 + doe - 305.

Definition digit (n : Z) : ascii := ascii_of_N (48 + Z.to_N (n mod 10)).

Definition digits2 (n : Z) : string :=
  String (digit (n / 10)) (String (digit n) EmptyString).

Definition digits4 (n : Z) : string :=
  String (digit (n / 1000)) (String (digit (n / 100)) (digits2 n)).

Definition iso (ordinal : Z) : string :=
  let '(y, m, d) := civil ordinal in
  (digits4 y ++ "-" ++ digits2 m ++ "-" ++ digits2 d)%string.

Definition digit_value (c : ascii) : option Z :=
  let n := N_of_ascii c in
  if ((48 <=? n) && (n <=? 57))%N then Some (Z.of_N n - 48) else None.

Fixpoint number (acc : Z) (s : string) : option Z :=
  match s with
  | EmptyString => Some acc
  | String c rest =>
      match digit_value c with
      | Some v => number (10 * acc + v) rest
      | None => None
      end
  end.

Definition parse_iso (s : string) : option Z :=
  if ((String.length s =? 10)%nat
      && String.eqb (substring 4 1 s) "-" && String.eqb (substring 7 1 s) "-")%bool
  then
    match number 0 (substring 0 4 s), number 0 (substring 5 2 s),
          number 0 (substring 8 2 s) with
    | Some y, Some m, Some d => Some (ordinal_of y m d)
    | _, _, _ => None
    end
  else None.

Definition between (t : Z) (a b : string) : bool :=
  match parse_iso a, parse_iso b with
  | Some x, Some y => (x <=? t) && (t <=? y)
  | _, _ => false
  end.

Fixpoint decimal_text (s : string) : bool :=
  match s with
  | EmptyString => true
  | String c rest =>
      (match digit_value c with
       | Some _ => true
       | None => Ascii.eqb c "."%char
       end) && decimal_text rest
  end.

Definition numeric (s : string) : option string :=
  if (negb (String.eqb s "") && decimal_text s)%bool then Some s else None.

(** Three days of a daily series. *)
Definition three_days : series :=
  [ ("2024-01-03", [("1. open", "102.0"); ("4. close", "103.5"); ("5. volume", "900")]);
    ("2024-01-02", [("1. open", "100.0"); ("4. close", "101.5"); ("5. volume", "1000000")]);
    ("2024-01-01", [("1. open", "99.0"); ("4. close", "100.0"); ("5. volume", "800")]) ]%string.

Definition good_body : payload :=
  [ ("Meta Data", JOther); ("Time Series (Daily)", JSeries three_days) ]%string.

(** A body whose series carries a cell that is no number. *)
Definition bad_cell_body : payload :=
  [ ("Time Series (Daily)",
     JSeries [ ("2024-01-02", [("1. open", "100.0"); ("4. close", "n/a")]) ]) ]%string.

(** A body without a series. *)
Definition no_series_body : payload := [ ("Meta Data", JOther) ]%string.

Definition premium_note : payload :=
  [ ("Note", JStr "Thank you for using Alpha Vantage! Please visit the Premium page to raise your call frequency.") ]%string.

Definition plain_note : payload :=
  [ ("Note", JStr "Our standard API call frequency is 5 calls per minute.") ]%string.

Definition premium_error : payload :=
  [ ("Error Message", JStr "This is a premium endpoint.") ]%string.

Definition invalid_call : payload :=
  [ ("Error Message", JStr "Invalid API call.") ]%string.

(** The text SQLite holds for the midnight of a day: the driver writes a
    timestamp with its time of day. *)
Definition stored_text (ordinal : Z) : string := (iso ordinal ++ " 00:00:00")%string.

(** The scripted API: the reply depends on the symbol asked for only. *)
Definition api (u : string) (n : nat) : reply :=
  if PyStr.contains "symbol=AAPL&" u then Object good_body
  else if PyStr.contains "symbol=BTC&" u then Object good_body
  else if PyStr.contains "symbol=IBM&" u then Object premium_note
  else if PyStr.contains "symbol=MSFT&" u then Object plain_note
  else if PyStr.contains "symbol=PREM&" u then Object premium_error
  else if PyStr.contains "symbol=NOPE123&" u then Object invalid_call
  else if PyStr.contains "symbol=BADCELL&" u then Object bad_cell_body
  else if PyStr.contains "symbol=EMPTY&" u then Object no_series_body
  else if PyStr.contains "symbol=DOWN&" u then NoReply
  else NotObject.

#[local] Instance env : Externals := {|
  API_KEY := "demo";
  num := string;
  to_numeric := numeric;
  timestamp := Z;
  to_datetime := parse_iso;
  sql_text := stored_text;
  ts_between := between;
  strftime := iso;
  requests_get := api
|}.

Definition bar (s d : string) : PriceBar :=
  {| symbol := s; date := d; open := Some "1"%string; high := None; low := None;
     close := Some "2"%string; volume := None; adjusted_close := None |}.

Definition empty_state : state := {| db := []; calls := 0; log := [] |}.

(** 2024-01-01, a Monday, and the Wednesday after it. *)
Definition jan1 : Z := 738886.
Definition jan3 : Z := 738888.

(** A cache that holds AAPL for the three days. *)
Definition aapl_days : table :=
  [ bar "AAPL" "2024-01-01"; bar "AAPL" "2024-01-02"; bar "AAPL" "2024-01-03" ]%string.

Definition warm_state : state := {| db := aapl_days; calls := 0; log := [] |}.

(** A batch of rows with a repeated key. *)
Definition batch : list PriceBar :=
  [ bar "AAPL" "2024-01-02"; bar "MSFT" "2024-01-01"; bar "AAPL" "2024-01-02" ]%string.

End Demo.

(** ** Measures of a run *)

(** The seconds spent in [time.sleep] among some events. *)
Definition seconds_slept (evs : list event) : nat :=
  list_sum (map (fun e => match e with Slept s => s | _ => 0 end) evs).

(** The events of [k] rate-limited attempts in a row, the first of them
    being call number [c]. *)
Definition retry_events (u sym : string) (msg : nat -> string) (c k : nat)
  : list event :=
  flat_map (fun i => [HttpGet u; HandleError (RateLimited sym (msg (i + c))); Slept 60])
           (seq 0 k).

Section Measures.

Context `{Externals}.

(** The frame of the last turn in which [sym] contributed one. *)
Definition is_success_of (sym : string) (o : string * option frame) : bool :=
  String.eqb sym (fst o) &&
  match snd o with
  | Some _ => true
  | None => false
  end.

Definition last_success (sym : string) (outs : list (string * option frame))
  : option frame :=
  match find (is_success_of sym) (rev outs) with
  | Some (_, Some f) => Some f
  | _ => None
  end.

(** [len(df)] of a frame and of the stacked frames; [df.empty] is a total
    of zero. *)
Definition frame_rows (f : frame) : nat :=
  match f with
  | Cached rows => List.length rows
  | Fresh _ _ rows => List.length rows
  end.

Definition total_rows (frames : list frame) : nat :=
  list_sum (map frame_rows frames).

End Measures.

(** ** The event handlers (lines 355-408) *)

Module PyText.

(** [str.isspace()] on one byte. *)
Definition is_space (c : ascii) : bool :=
  let n := N_of_ascii c in
  (((9 <=? n) && (n <=? 13)) || ((28 <=? n) && (n <=? 32)))%N.

Fixpoint lstrip (s : string) : string :=
  match s with
  | EmptyString => EmptyString
  | String c rest => if is_space c then lstrip rest else s
  end.

(** [rstrip] keeps a byte when it is no space or something is kept after
    it. *)
Fixpoint rstrip (s : string) : string :=
  match s with
  | EmptyString => EmptyString
  | String c rest =>
      match rstrip rest with
      | EmptyString => if is_space c then EmptyString else String c EmptyString
      | kept => String c kept
      end
  end.

(** [s.strip()]. *)
Definition strip (s : string) : string := rstrip (lstrip s).

(** [str.upper()] on one byte: the letters a..z move to A..Z. *)
Definition upper_ascii (c : ascii) : ascii :=
  let n := N_of_ascii c in
  if ((97 <=? n) && (n <=? 122))%N then ascii_of_N (n - 32) else c.

Fixpoint upper (s : string) : string :=
  match s with
  | EmptyString => EmptyString
  | String c rest => String (upper_ascii c) (upper rest)
  end.

End PyText.

Inductive output :=
| MainOutput
| SummaryOutput
| ErrorOutput.

(** An exception that leaves a handler: one of the fetcher's kinds, or the
    [TraitError] of a selection that is not among the options. *)
Inductive handler_exn :=
| FromCore (e : exn)
| TraitError.

Inductive handled :=
| Done
| Raised (e : handler_exn).

Section Handlers.

Context `{Externals}.

(** The values of the control widgets.  A date picker holds a date or
    [None]. *)
Record controls := {
  options : list string;
  selected : list string;
  custom_symbol : string;
  time_range : Z;
  start_date : option Z;
  end_date : option Z;
  metrics : list string;
  chart_type : string;
  indicators : list string;
  portfolio : string;
  ai_insights : bool;
  dark_mode : bool
}.

(** What the handlers themselves show or log, beside the events of the
    fetcher. *)
Inductive shown :=
| ClearOutput (o : output)
| ErrorShown (message : string)
| GeneratingPlot (df : list frame) (chart : string) (metric indicator : list string)
                 (theme : string)
| CalculatingSummary (df : list frame)
| NoDataToDisplay
| InfoLogged (message : string).

Record dashboard := {
  widgets : controls;
  core : state;
  screen : list shown
}.

Definition show (evs : list shown) (u : dashboard) : dashboard :=
  {| widgets := widgets u; core := core u; screen := screen u ++ evs |}.

Definition with_core (st : state) (u : dashboard) : dashboard :=
  {| widgets := widgets u; core := st; screen := screen u |}.

(** [on_refresh_clicked] (lines 355-381). *)
Definition on_refresh_clicked (u : dashboard) : handled * dashboard :=
  let u0 := show [ClearOutput ErrorOutput] u in
  let symbols := selected (widgets u) in
  match symbols with
  | [] => (Done, show [ErrorShown "Please select at least one stock symbol."] u0)
  | _ :: _ =>
      match start_date (widgets u), end_date (widgets u) with
      | Some start, Some stop =>
          if (stop <=? start)%Z then
            (Done, show [ErrorShown "Start date must be before the end date."] u0)
          else
            match fetch_stock_data symbols start stop (core u) with
            | (Raise e, st) => (Raised (FromCore e), with_core st u0)
            | (Ok df, st) =>
                let u1 := with_core st u0 in
                match df with
                | Some frames =>
                    if (total_rows frames =? 0)%nat then (Done, show [NoDataToDisplay] u1)
                    else
                      let theme := if dark_mode (widgets u)
                                   then "plotly_dark" else "plotly_white" in
                      (Done,
                       show [ GeneratingPlot frames (chart_type (widgets u))
                                (metrics (widgets u)) (indicators (widgets u)) theme;
                              CalculatingSummary frames ] u1)
                | None => (Done, show [NoDataToDisplay] u1)
                end
            end
      | _, _ => (Raised (FromCore TypeError), u0)
      end
  end.

(** [on_add_symbol_clicked] (lines 383-390), on the two widget values it
    reads and writes: the options of the selector and the text of the
    input.  [str_strip] and [str_upper] are the two string methods of the
    running Python, which follow Unicode. *)
Definition on_add_symbol_clicked (str_strip str_upper : string -> string)
    (opts : list string) (input : string)
  : list string * string * list shown :=
  let custom := str_upper (str_strip input) in
  if negb (String.eqb custom "") && negb (existsb (String.eqb custom) opts) then
    (opts ++ [custom], "", [InfoLogged ("Added custom symbol: " ++ custom)])
  else (opts, input, []).

(** The controls after the assignments of [on_reset_clicked]; [today] and
    [today'] are the two readings of the clock.  The options of the
    selector and the text of the custom input are not assigned. *)
Definition reset_controls (w : controls) (today today' : Z) : controls :=
  {| options := options w;
     selected := ["AAPL"];
     custom_symbol := custom_symbol w;
     time_range := 90;
     start_date := Some (today - 90)%Z;
     end_date := Some today';
     metrics := ["Close"];
     chart_type := "Line";
     indicators := [];
     portfolio := "";
     ai_insights := false;
     dark_mode := true |}.

(** [on_reset_clicked] (lines 392-408).  The first assignment selects AAPL,
    which the selector refuses when AAPL is not among its options. *)
Definition on_reset_clicked (today today' : Z) (u : dashboard) : handled * dashboard :=
  if existsb (String.eqb "AAPL") (options (widgets u)) then
    on_refresh_clicked
      {| widgets := reset_controls (widgets u) today today';
         core := core u;
         screen := screen u ++ [ ClearOutput MainOutput; ClearOutput SummaryOutput;
                                 ClearOutput ErrorOutput;
                                 InfoLogged "Controls reset to default." ] |}
  else (Raised TraitError, u).

End Handlers.

(** ** A second environment: two rate-limited replies, then data *)
Module Flaky.

Definition api (u : string) (n : nat) : reply :=
  if (n <? 2)%nat then Object Demo.premium_note else Object Demo.good_body.

#[local] Instance env : Externals := {|
  API_KEY := "demo";
  num := string;
  to_numeric := Demo.numeric;
  timestamp := Z;
  to_datetime := Demo.parse_iso;
  sql_text := Demo.stored_text;
  ts_between := Demo.between;
  strftime := Demo.iso;
  requests_get := api
|}.

Definition empty_state : state := {| db := []; calls := 0; log := [] |}.

End Flaky.

(** ** A third environment: one reply whose fields share a column *)
Module Doubled.

(** Both spellings of the opening price in one entry. *)
Definition doubled_body : payload :=
  [ ("Time Series (Daily)",
     JSeries [ ("2024-01-02", [("1. open", "100.0"); ("1a. open (USD)", "100.0")]) ]) ]%string.

Definition api (u : string) (n : nat) : reply :=
  if PyStr.contains "symbol=AAPL&" u then Object Demo.good_body
  else Object doubled_body.

#[local] Instance env : Externals := {|
  API_KEY := "demo";
  num := string;
  to_numeric := Demo.numeric;
  timestamp := Z;
  to_datetime := Demo.parse_iso;
  sql_text := Demo.stored_text;
  ts_between := Demo.between;
  strftime := Demo.iso;
  requests_get := api
|}.

Definition empty_state : state := {| db := []; calls := 0; log := [] |}.

End Doubled.

(** ** Dashboards for the examples *)
Module DemoUi.

#[local] Existing Instance Demo.env.

Definition defaults : list string :=
  ["AAPL"; "MSFT"; "TSLA"; "AMZN"; "GOOGL"; "SPY"; "BTC-USD"].

Definition fresh (st : state) (picked : list string) (start stop : option Z) : dashboard :=
  {| widgets := {| options := defaults; selected := picked; custom_symbol := "";
                   time_range := 90; start_date := start; end_date := stop;
                   metrics := ["Close"]; chart_type := "Line"; indicators := [];
                   portfolio := ""; ai_insights := false; dark_mode := true |};
     core := st; screen := [] |}.

End DemoUi.

(** * Properties *)

Example iso_jan1 : Demo.iso Demo.jan1 = "2024-01-01".
Proof. reflexivity. Qed.

Example parse_jan3 : Demo.parse_iso "2024-01-03" = Some Demo.jan3.
Proof. reflexivity. Qed.


(** ** Order of strings and of keys *)

Lemma ascii_compare_refl (c : ascii) : Ascii.compare c c = Eq.
Proof. unfold Ascii.compare. apply N.compare_refl. Qed.

Lemma ascii_compare_lt_trans (a b c : ascii) :
  Ascii.compare a b = Lt -> Ascii.compare b c = Lt -> Ascii.compare a c = Lt.
Proof.
  unfold Ascii.compare. rewrite !N.compare_lt_iff. apply N.lt_trans.
Qed.

Lemma string_compare_refl (s : string) : String.compare s s = Eq.
Proof.
  induction s as [|c s IH]; simpl; trivial.
  now rewrite ascii_compare_refl.
Qed.

Lemma string_compare_lt_trans (a b c : string) :
  String.compare a b = Lt -> String.compare b c = Lt -> String.compare a c = Lt.
Proof.
  revert b c.
  induction a as [|x a IH]; intros [|y b] [|z c]; simpl; try congruence.
  destruct (Ascii.compare x y) eqn:Exy; try discriminate.
  - apply Ascii.compare_eq_iff in Exy. subst y.
    destruct (Ascii.compare x z) eqn:Exz; try congruence.
    apply IH.
  - intros _.
    destruct (Ascii.compare y z) eqn:Eyz; try discriminate.
    + apply Ascii.compare_eq_iff in Eyz. subst z. rewrite Exy. reflexivity.
    + intros _. rewrite (ascii_compare_lt_trans _ _ _ Exy Eyz). reflexivity.
Qed.

Lemma string_compare_gt_lt (a b : string) :
  String.compare a b = Gt <-> String.compare b a = Lt.
Proof.
  rewrite (String.compare_antisym a b).
  destruct (String.compare b a); simpl; split; congruence.
Qed.

Lemma key_compare_refl (k : string * string) : key_compare k k = Eq.
Proof. unfold key_compare. now rewrite !string_compare_refl. Qed.

Lemma key_compare_eq (a b : string * string) : key_compare a b = Eq -> a = b.
Proof.
  destruct a as [a1 a2], b as [b1 b2]. unfold key_compare. simpl.
  destruct (String.compare a1 b1) eqn:E1; try discriminate.
  intros E2. apply String.compare_eq_iff in E1, E2. congruence.
Qed.

Lemma key_compare_antisym (a b : string * string) :
  key_compare b a = CompOpp (key_compare a b).
Proof.
  unfold key_compare.
  rewrite (String.compare_antisym (fst b) (fst a)).
  destruct (String.compare (fst a) (fst b)); simpl; trivial.
  apply String.compare_antisym.
Qed.

Lemma key_compare_lt_trans (a b c : string * string) :
  key_compare a b = Lt -> key_compare b c = Lt -> key_compare a c = Lt.
Proof.
  unfold key_compare.
  destruct (String.compare (fst a) (fst b)) eqn:Eab; try discriminate;
    destruct (String.compare (fst b) (fst c)) eqn:Ebc; try discriminate; intros Hab Hbc.
  - apply String.compare_eq_iff in Eab, Ebc.
    rewrite Eab, Ebc, string_compare_refl.
    eapply string_compare_lt_trans; eassumption.
  - apply String.compare_eq_iff in Eab. rewrite Eab, Ebc. reflexivity.
  - apply String.compare_eq_iff in Ebc. rewrite <- Ebc, Eab. reflexivity.
  - rewrite (string_compare_lt_trans _ _ _ Eab Ebc). reflexivity.
Qed.

Lemma key_eqb_compare (a b : string * string) :
  key_eqb a b = match key_compare a b with Eq => true | _ => false end.
Proof.
  unfold key_eqb, key_compare.
  destruct (String.eqb_spec (fst a) (fst b)) as [E1|N1]; simpl.
  - rewrite E1, string_compare_refl.
    destruct (String.eqb_spec (snd a) (snd b)) as [E2|N2].
    + rewrite E2, string_compare_refl. reflexivity.
    + destruct (String.compare (snd a) (snd b)) eqn:E; trivial.
      apply String.compare_eq_iff in E. contradiction.
  - destruct (String.compare (fst a) (fst b)) eqn:E; trivial.
    apply String.compare_eq_iff in E. contradiction.
Qed.

(** ** The table as a finite map in key order *)

Section TableProps.

Context `{Externals}.

Lemma find_app {A : Type} (f : A -> bool) (l1 l2 : list A) :
  find f (l1 ++ l2) =
  match find f l1 with
  | Some x => Some x
  | None => find f l2
  end.
Proof.
  induction l1 as [|x l1 IH]; simpl; trivial.
  destruct (f x); trivial.
Qed.

Lemma table_ok_nil : table_ok [].
Proof. constructor. Qed.

Lemma insert_or_replace_Forall (P : PriceBar -> Prop) (r : PriceBar) (t : table) :
  P r -> Forall P t -> Forall P (insert_or_replace r t).
Proof.
  intros Hr Ht.
  induction Ht as [|x rest Hx Hrest IH]; simpl.
  - repeat constructor; assumption.
  - destruct (key_compare (key r) (key x)); repeat constructor; assumption.
Qed.

Lemma key_lt_trans (x y z : PriceBar) : key_lt x y -> key_lt y z -> key_lt x z.
Proof. apply key_compare_lt_trans. Qed.

Lemma insert_or_replace_ok (r : PriceBar) (t : table) :
  table_ok t -> table_ok (insert_or_replace r t).
Proof.
  unfold table_ok.
  induction 1 as [|x rest Hrest IH Hx]; simpl.
  - repeat constructor.
  - destruct (key_compare (key r) (key x)) eqn:E.
    + apply key_compare_eq in E.
      constructor; trivial.
      unfold key_lt in *. rewrite E. exact Hx.
    + constructor.
      * constructor; assumption.
      * constructor; [exact E|].
        eapply Forall_impl; [|exact Hx].
        intros y Hy. eapply key_lt_trans; [exact E|exact Hy].
    + constructor; trivial.
      apply insert_or_replace_Forall; trivial.
      unfold key_lt. rewrite key_compare_antisym, E. reflexivity.
Qed.

Lemma upsert_ok (rows : list PriceBar) (t : table) :
  table_ok t -> table_ok (upsert rows t).
Proof.
  unfold upsert. revert t.
  induction rows as [|r rows IH]; simpl; intros t Ht; trivial.
  apply IH, insert_or_replace_ok, Ht.
Qed.

Lemma lookup_cons (k : string * string) (x : PriceBar) (t : table) :
  lookup k (x :: t) = if key_eqb k (key x) then Some x else lookup k t.
Proof. reflexivity. Qed.

Lemma key_eqb_refl (k : string * string) : key_eqb k k = true.
Proof. rewrite key_eqb_compare, key_compare_refl. reflexivity. Qed.

Lemma key_eqb_eq (a b : string * string) : key_eqb a b = true -> a = b.
Proof.
  rewrite key_eqb_compare.
  destruct (key_compare a b) eqn:E; try discriminate.
  intros _. apply key_compare_eq, E.
Qed.

Lemma lookup_insert (k : string * string) (r : PriceBar) (t : table) :
  lookup k (insert_or_replace r t) =
  if key_eqb k (key r) then Some r else lookup k t.
Proof.
  induction t as [|x rest IH]; simpl insert_or_replace.
  - reflexivity.
  - destruct (key_compare (key r) (key x)) eqn:E.
    + apply key_compare_eq in E.
      rewrite !lookup_cons, <- E.
      destruct (key_eqb k (key r)); reflexivity.
    + rewrite lookup_cons. reflexivity.
    + rewrite lookup_cons, IH, lookup_cons.
      destruct (key_eqb k (key x)) eqn:Ex; trivial.
      destruct (key_eqb k (key r)) eqn:Er; trivial.
      apply key_eqb_eq in Ex, Er.
      rewrite <- Ex, <- Er, key_compare_refl in E. discriminate.
Qed.

Lemma lookup_upsert (k : string * string) (rows : list PriceBar) (t : table) :
  lookup k (upsert rows t) =
  match lookup k (rev rows) with
  | Some r => Some r
  | None => lookup k t
  end.
Proof.
  unfold upsert. revert t.
  induction rows as [|r rows IH]; intros t; simpl.
  - reflexivity.
  - rewrite IH, lookup_insert.
    unfold lookup at 3. rewrite find_app. fold (lookup k (rev rows)).
    destruct (lookup k (rev rows)); trivial.
    simpl. destruct (key_eqb k (key r)); reflexivity.
Qed.

Lemma lookup_none_below (k : string * string) (t : table) :
  Forall (fun y => key_compare k (key y) = Lt) t -> lookup k t = None.
Proof.
  induction 1 as [|y rest Hy Hrest IH]; trivial.
  rewrite lookup_cons, key_eqb_compare, Hy. exact IH.
Qed.

Lemma lookup_head (x : PriceBar) (t : table) : lookup (key x) (x :: t) = Some x.
Proof. rewrite lookup_cons, key_eqb_refl. reflexivity. Qed.

Lemma lookup_below_head (x y : PriceBar) (t : table) :
  key_lt x y -> Forall (key_lt y) t -> lookup (key x) (y :: t) = None.
Proof.
  intros Hxy Hy. apply lookup_none_below.
  constructor; [exact Hxy|].
  eapply Forall_impl; [|exact Hy].
  intros z Hz. eapply key_lt_trans; [exact Hxy|exact Hz].
Qed.

(** Two tables in key order that answer every key alike are the same
    list. *)
Lemma table_ext (t1 t2 : table) :
  table_ok t1 -> table_ok t2 ->
  (forall k, lookup k t1 = lookup k t2) -> t1 = t2.
Proof.
  unfold table_ok. intros H1. revert t2.
  induction H1 as [|x1 r1 Hr1 IH Hx1]; intros t2 H2 Hext.
  - destruct t2 as [|x2 r2]; trivial.
    specialize (Hext (key x2)). rewrite lookup_head in Hext. discriminate.
  - destruct H2 as [|x2 r2 Hr2 Hx2].
    + specialize (Hext (key x1)). rewrite lookup_head in Hext. discriminate.
    + destruct (key_compare (key x1) (key x2)) eqn:E.
      * pose proof (Hext (key x1)) as Hk.
        apply key_compare_eq in E.
        rewrite lookup_head, E, lookup_head in Hk.
        injection Hk as ->. f_equal.
        apply IH; trivial.
        intros k. specialize (Hext k). rewrite !lookup_cons in Hext.
        destruct (key_eqb k (key x2)) eqn:Ek; trivial.
        apply key_eqb_eq in Ek. subst k.
        rewrite !lookup_none_below; trivial.
      * pose proof (Hext (key x1)) as Hk.
        rewrite lookup_head, lookup_below_head in Hk; trivial. discriminate.
      * pose proof (Hext (key x2)) as Hk.
        rewrite lookup_head, lookup_below_head in Hk; trivial; try discriminate.
        unfold key_lt. rewrite key_compare_antisym, E. reflexivity.
Qed.

Lemma StronglySorted_filter {A : Type} (R : A -> A -> Prop) (f : A -> bool) (l : list A) :
  StronglySorted R l -> StronglySorted R (filter f l).
Proof.
  induction 1 as [|x l Hl IH Hx]; simpl.
  - constructor.
  - destruct (f x); trivial.
    constructor; trivial.
    rewrite Forall_forall in *. intros y Hy.
    apply filter_In in Hy. apply Hx, Hy.
Qed.

Lemma StronglySorted_weaken {A : Type} (R R' : A -> A -> Prop) (l : list A) :
  (forall x y, In x l -> In y l -> R x y -> R' x y) ->
  StronglySorted R l -> StronglySorted R' l.
Proof.
  intros HR Hl. induction Hl as [|x l Hl IH Hx].
  - constructor.
  - constructor.
    + apply IH. intros a b Ha Hb. apply HR; right; assumption.
    + rewrite Forall_forall in *. intros y Hy.
      apply HR; [left; reflexivity|right; exact Hy|apply Hx, Hy].
Qed.

Lemma StronglySorted_irrefl_NoDup {A : Type} (R : A -> A -> Prop) (l : list A) :
  (forall x, ~ R x x) -> StronglySorted R l -> NoDup l.
Proof.
  intros Hirr. induction 1 as [|x l Hl IH Hx]; constructor; trivial.
  intros Hin. rewrite Forall_forall in Hx. exact (Hirr x (Hx x Hin)).
Qed.

Lemma in_range_spec (s a b : string) (r : PriceBar) :
  in_range s a b r = true <->
  symbol r = s /\ String.leb a (date r) = true /\ String.leb (date r) b = true.
Proof.
  unfold in_range. rewrite !andb_true_iff, String.eqb_eq. tauto.
Qed.

(** C6. Upsert idempotence: on a table in key order, writing the same rows
    a second time changes nothing; the table stays in key order without a
    repeated (symbol, date) key, and each key of the batch is answered by
    the last row the batch has for it while every other key keeps its
    row. *)
Theorem upsert_idempotent (rows : list PriceBar) (t : table) :
  table_ok t ->
  upsert rows (upsert rows t) = upsert rows t /\
  table_ok (upsert rows t) /\
  NoDup (map key (upsert rows t)) /\
  forall k, lookup k (upsert rows t) =
            match lookup k (rev rows) with
            | Some r => Some r
            | None => lookup k t
            end.
Proof.
  intros Ht.
  assert (Hok : table_ok (upsert rows t)) by (apply upsert_ok, Ht).
  split; [|split; [exact Hok|split]].
  - apply table_ext; trivial.
    + apply upsert_ok, Hok.
    + intros k. rewrite !lookup_upsert.
      destruct (lookup k (rev rows)); reflexivity.
  - apply (StronglySorted_irrefl_NoDup (fun a b => key_compare a b = Lt)).
    + intros k. rewrite key_compare_refl. discriminate.
    + clear -Hok. unfold table_ok in Hok.
      induction Hok as [|x l Hl IH Hx]; simpl; constructor; trivial.
      rewrite Forall_forall in *. intros k Hk.
      apply in_map_iff in Hk. destruct Hk as [y [<- Hy]]. apply Hx, Hy.
  - intros k. apply lookup_upsert.
Qed.

Lemma compare_empty_l (t : string) : t <> "" -> String.compare "" t = Lt.
Proof. destruct t; [intros Hne; now elim Hne|reflexivity]. Qed.

Lemma compare_empty_r (t : string) : t <> "" -> String.compare t "" = Gt.
Proof. destruct t; [intros Hne; now elim Hne|reflexivity]. Qed.

(** Comparing a text that goes on after a text of the length of the other
    one: the shorter parts decide, and when they are equal the longer text
    is the greater. *)
Lemma compare_app_l (s u t : string) :
  String.length s = String.length u ->
  String.compare (s ++ t) u =
  match String.compare s u with
  | Eq => String.compare t ""
  | c => c
  end.
Proof.
  revert u. induction s as [|c s IH]; intros [|d u]; simpl; try discriminate.
  - intros _. destruct t; reflexivity.
  - intros [= Hlen]. destruct (Ascii.compare c d); trivial. apply IH, Hlen.
Qed.

Lemma compare_app_r (s u t : string) :
  String.length s = String.length u ->
  String.compare u (s ++ t) =
  match String.compare u s with
  | Eq => String.compare "" t
  | c => c
  end.
Proof.
  revert u. induction s as [|c s IH]; intros [|d u]; simpl; try discriminate.
  - intros _. destruct t; reflexivity.
  - intros [= Hlen]. destruct (Ascii.compare d c); trivial. apply IH, Hlen.
Qed.

(** C7. The cache read, for a symbol that the statement carries as it is.
    The statement compares the dates as text: it returns the rows of the
    symbol whose stored text lies between the two bounds.  A row whose
    stored text is the end bound followed by a time of day, as every row
    of the end day written by [to_sql] is, lies after the bound and is
    not returned; more generally, of the rows stored with a time of day
    the statement returns those of the days from the start bound up to,
    but not including, the end bound.  On a table in key order the rows
    come in strictly ascending order of the date text, each once. *)
Theorem read_sql_drops_end_day (t : table) (s a b : string) :
  sql_safe s = true ->
  (forall r, In r (read_sql t s a b) <->
             In r t /\ symbol r = s /\
             String.leb a (date r) = true /\ String.leb (date r) b = true) /\
  (forall r time,
     time <> "" -> date r = (b ++ time)%string -> ~ In r (read_sql t s a b)) /\
  (forall r day time,
     String.length day = String.length a -> String.length day = String.length b ->
     time <> "" -> date r = (day ++ time)%string ->
     (In r (read_sql t s a b) <->
      In r t /\ symbol r = s /\
      String.leb a day = true /\ String.ltb day b = true)) /\
  (table_ok t ->
   StronglySorted date_lt (read_sql t s a b) /\ NoDup (read_sql t s a b)).
Proof.
  intros _.
  assert (Hmem : forall r, In r (read_sql t s a b) <->
             In r t /\ symbol r = s /\
             String.leb a (date r) = true /\ String.leb (date r) b = true).
  { intros r. unfold read_sql. rewrite filter_In, in_range_spec. tauto. }
  split; [exact Hmem|]. split; [|split].
  - intros r time Htime Hdate Hin. apply Hmem in Hin.
    destruct Hin as (_ & _ & _ & Hb). revert Hb.
    unfold String.leb. rewrite Hdate, compare_app_l, string_compare_refl by reflexivity.
    rewrite (compare_empty_r _ Htime). discriminate.
  - intros r day time Ha Hb Htime Hdate. rewrite Hmem, Hdate.
    unfold String.leb, String.ltb.
    rewrite (compare_app_r day a time) by exact Ha.
    rewrite (compare_app_l day b time) by exact Hb.
    rewrite (compare_empty_l _ Htime), (compare_empty_r _ Htime).
    destruct (String.compare a day), (String.compare day b);
      split; intros (H1 & H2 & H3 & H4); repeat split; trivial; discriminate.
  - intros Ht.
    assert (Hsorted : StronglySorted date_lt (read_sql t s a b)).
    { apply (StronglySorted_weaken key_lt).
      - intros x y Hx Hy Hlt.
        apply filter_In in Hx, Hy.
        destruct Hx as [_ Hx], Hy as [_ Hy].
        apply in_range_spec in Hx, Hy.
        destruct Hx as [Sx _], Hy as [Sy _].
        unfold key_lt, key_compare, key in Hlt. simpl in Hlt.
        rewrite Sx, Sy, string_compare_refl in Hlt.
        unfold date_lt, String.ltb. rewrite Hlt. reflexivity.
      - apply StronglySorted_filter, Ht. }
    split; [exact Hsorted|].
    apply (StronglySorted_irrefl_NoDup date_lt); trivial.
    intros x. unfold date_lt, String.ltb. rewrite string_compare_refl. discriminate.
Qed.

End TableProps.

(** ** The call and its retries *)

Ltac same_state :=
  unfold advance; cbn [db calls log];
  repeat rewrite <- app_assoc; cbn [app Nat.add];
  rewrite ?Nat.add_0_r, ?app_nil_r;
  try reflexivity.

Section RetryProps.

Context `{Externals}.

Lemma advance_advance (n m : nat) (evs evs' : list event) (st : state) :
  advance n evs (advance m evs' st) = advance (m + n) (evs' ++ evs) st.
Proof.
  unfold advance; cbn [db calls log].
  f_equal; [lia|apply eq_sym, app_assoc].
Qed.

Lemma advance_none (st : state) : advance 0 [] st = st.
Proof. destruct st. unfold advance. simpl. now rewrite app_nil_r. Qed.

Lemma dict_get_has_key {V : Type} (k : string) (d : list (string * V)) (v : V) :
  dict_get k d = Some v -> has_key k d = true.
Proof.
  unfold dict_get, has_key.
  induction d as [|[k' v'] d IH]; simpl; try discriminate.
  destruct (String.eqb k k'); simpl; trivial.
Qed.

Lemma has_key_false_get {V : Type} (k : string) (d : list (string * V)) :
  has_key k d = false -> dict_get k d = None.
Proof.
  unfold dict_get, has_key.
  induction d as [|[k' v'] d IH]; simpl; trivial.
  destruct (String.eqb k k'); simpl; try discriminate. exact IH.
Qed.

Lemma note_message (d : payload) (v : jvalue) :
  dict_get "Note" d = Some v -> api_signal d = true /\ api_message d = v.
Proof.
  intros Hd. unfold api_signal, api_message.
  rewrite (dict_get_has_key _ _ _ Hd), Hd. split; reflexivity.
Qed.

Lemma error_message (d : payload) (v : jvalue) :
  has_key "Note" d = false -> dict_get "Error Message" d = Some v ->
  api_signal d = true /\ api_message d = v.
Proof.
  intros Hn Hd. unfold api_signal, api_message.
  rewrite (has_key_false_get _ _ Hn), (dict_get_has_key _ _ _ Hd), Hd, Hn.
  split; reflexivity.
Qed.

(** A signal with "premium" in its text: the attempt is followed by the
    notification, the wait and the next turn of the loop. *)
Lemma api_call_retry (u sym : string) (a : nat) (later : list nat)
    (data : option payload) (st : state) (d : payload) (msg : string) :
  requests_get u (calls st) = Object d ->
  api_signal d = true -> api_message d = JStr msg -> premium msg = true ->
  api_call u sym (a :: later) data st =
  api_call u sym later (Some d)
    (advance 1 [HttpGet u; HandleError (RateLimited sym msg); Slept 60] st).
Proof.
  intros Hget Hsig Hmsg Hprem.
  cbn [api_call]. unfold bind at 1. unfold requests_json.
  rewrite Hget, Hsig, Hmsg, Hprem.
  unfold handle_error, sleep, bind, emit. cbn [db calls log].
  f_equal. same_state.
Qed.

(** A signal without "premium" in its text ends the loop at once. *)
Lemma api_call_abort (u sym : string) (a : nat) (later : list nat)
    (data : option payload) (st : state) (d : payload) (msg : string) :
  requests_get u (calls st) = Object d ->
  api_signal d = true -> api_message d = JStr msg -> premium msg = false ->
  api_call u sym (a :: later) data st =
  (Ok (Some d), advance 1 [HttpGet u; HandleError (ApiError sym msg)] st).
Proof.
  intros Hget Hsig Hmsg Hprem.
  cbn [api_call]. unfold bind at 1. unfold requests_json.
  rewrite Hget, Hsig, Hmsg, Hprem.
  unfold handle_error, bind, emit, ret. cbn [db calls log].
  f_equal. same_state.
Qed.

(** A body without a signal ends the loop as well. *)
Lemma api_call_success (u sym : string) (a : nat) (later : list nat)
    (data : option payload) (st : state) (d : payload) :
  requests_get u (calls st) = Object d -> api_signal d = false ->
  api_call u sym (a :: later) data st = (Ok (Some d), advance 1 [HttpGet u] st).
Proof.
  intros Hget Hsig.
  cbn [api_call]. unfold bind at 1. unfold requests_json.
  rewrite Hget, Hsig. unfold ret. f_equal.
Qed.

Lemma body_hit (sym : string) (start stop : Z) (st : state) :
  has_complete_range (read_sql (db st) sym (strftime start) (strftime stop))
                     start stop = true ->
  body sym start stop st =
  (Ok (Some (Cached (read_sql (db st) sym (strftime start) (strftime stop)))),
   advance 0 [Printed (FoundInCache sym)] st).
Proof.
  intros Hhit. unfold body, bind, get_db. rewrite Hhit. reflexivity.
Qed.

Lemma body_miss (sym : string) (start stop : Z) (st : state) :
  has_complete_range (read_sql (db st) sym (strftime start) (strftime stop))
                     start stop = false ->
  body sym start stop st =
  after_call sym start stop
    (api_call (url sym) sym (seq 0 3) None
       (advance 0 [Printed (FetchingNew sym)] st)).
Proof.
  intros Hmiss. unfold body, bind at 1, get_db. rewrite Hmiss.
  unfold bind at 1, emit at 1.
  unfold bind at 1, after_call.
  change {| db := db st; calls := calls st; log := log st ++ [Printed (FetchingNew sym)] |}
    with (advance 0 [Printed (FetchingNew sym)] st).
  destruct (api_call (url sym) sym (seq 0 3) None
              (advance 0 [Printed (FetchingNew sym)] st)) as [[[d|]|e] st1]; trivial.
  destruct (api_signal d); trivial.
  destruct (normalize d) as [df|e]; trivial.
  unfold to_sql, bind, raise, get_db, put_db, emit, ret.
  destruct (known_columns df); reflexivity.
Qed.

(** An "Error Message" with "premium" in its text is retried like a
    note: the loop looks at the text, not at the key. *)
Lemma premium_error_is_retried (u sym : string) (a : nat) (later : list nat)
    (data : option payload) (st : state) (d : payload) (msg : string) :
  requests_get u (calls st) = Object d ->
  has_key "Note" d = false -> dict_get "Error Message" d = Some (JStr msg) ->
  premium msg = true ->
  api_call u sym (a :: later) data st =
  api_call u sym later (Some d)
    (advance 1 [HttpGet u; HandleError (RateLimited sym msg); Slept 60] st).
Proof.
  intros Hget Hnote Herr Hprem.
  destruct (error_message _ _ Hnote Herr) as [Hsig Hmsg].
  apply api_call_retry; assumption.
Qed.

End RetryProps.

Section RetryTheorems.

Context `{Externals}.

(** C2. Retry bound as the code has it: when the cache is incomplete and
    every reply for the symbol is a "Note" whose text contains "premium",
    the symbol costs exactly three HTTP attempts, each followed by a wait
    of 60 seconds (three waits, the last one after the final attempt), and
    ends without a result. *)
Theorem premium_note_three_attempts (sym : string) (start stop : Z) (st : state)
    (d : nat -> payload) (msg : nat -> string) :
  has_complete_range (read_sql (db st) sym (strftime start) (strftime stop))
                     start stop = false ->
  (forall n, requests_get (url sym) n = Object (d n) /\
             dict_get "Note" (d n) = Some (JStr (msg n)) /\
             premium (msg n) = true) ->
  let c := calls st in
  let evs :=
    [ Printed (FetchingNew sym);
      HttpGet (url sym); HandleError (RateLimited sym (msg c)); Slept 60;
      HttpGet (url sym); HandleError (RateLimited sym (msg (1 + c))); Slept 60;
      HttpGet (url sym); HandleError (RateLimited sym (msg (2 + c))); Slept 60 ] in
  body sym start stop st = (Ok None, advance 3 evs st) /\
  List.length (filter is_http evs) = 3 /\
  filter is_sleep evs = [Slept 60; Slept 60; Slept 60].
Proof.
  intros Hmiss Hall c evs.
  split; [|split; reflexivity].
  rewrite (body_miss _ _ _ _ Hmiss). cbn [seq].
  destruct (Hall c) as (G0 & N0 & P0).
  destruct (Hall (1 + c)) as (G1 & N1 & P1).
  destruct (Hall (2 + c)) as (G2 & N2 & P2).
  apply note_message in N0, N1, N2.
  destruct N0 as [S0 M0], N1 as [S1 M1], N2 as [S2 M2].
  rewrite (api_call_retry _ _ _ _ _ (advance 0 _ st) _ _ G0 S0 M0 P0).
  rewrite advance_advance.
  rewrite (api_call_retry _ _ _ _ _ (advance 1 _ st) _ _ G1 S1 M1 P1).
  rewrite advance_advance.
  rewrite (api_call_retry _ _ _ _ _ (advance 2 _ st) _ _ G2 S2 M2 P2).
  rewrite advance_advance.
  cbn [api_call]. unfold ret, after_call. rewrite S2. reflexivity.
Qed.

(** C3, as amended. A reply with the key "Error Message", no key "Note" and
    a text without "premium" ends the retry loop with that attempt,
    whatever attempts were left: one request, one API-error notification,
    no wait; when it is the symbol's first reply the symbol ends without a
    result after that single attempt. *)
Theorem hard_error_aborts (sym : string) (start stop : Z) (st : state)
    (d : payload) (msg : string) :
  requests_get (url sym) (calls st) = Object d ->
  has_key "Note" d = false ->
  dict_get "Error Message" d = Some (JStr msg) ->
  premium msg = false ->
  (forall a later data,
     api_call (url sym) sym (a :: later) data st =
     (Ok (Some d),
      advance 1 [HttpGet (url sym); HandleError (ApiError sym msg)] st)) /\
  single_attempt_no_sleep [HttpGet (url sym); HandleError (ApiError sym msg)] /\
  (has_complete_range (read_sql (db st) sym (strftime start) (strftime stop))
                      start stop = false ->
   body sym start stop st =
   (Ok None,
    advance 1 [Printed (FetchingNew sym); HttpGet (url sym);
               HandleError (ApiError sym msg)] st)).
Proof.
  intros Hget Hnote Herr Hprem.
  destruct (error_message _ _ Hnote Herr) as [Hsig Hmsg].
  split; [|split].
  - intros a later data. apply api_call_abort; assumption.
  - split; reflexivity.
  - intros Hmiss. rewrite (body_miss _ _ _ _ Hmiss). cbn [seq].
    rewrite (api_call_abort _ _ _ _ _ (advance 0 _ st) _ _ Hget Hsig Hmsg Hprem).
    rewrite advance_advance. unfold after_call. rewrite Hsig. reflexivity.
Qed.

(** C10. A reply with the key "Note" whose text has no "premium" is treated
    as an API error: the retry loop ends with that attempt, whatever
    attempts were left, after one request and one API-error notification
    and without a wait; when it is the symbol's first reply the symbol ends
    without a result after that single attempt. *)
Theorem plain_note_aborts (sym : string) (start stop : Z) (st : state)
    (d : payload) (msg : string) :
  requests_get (url sym) (calls st) = Object d ->
  dict_get "Note" d = Some (JStr msg) ->
  premium msg = false ->
  (forall a later data,
     api_call (url sym) sym (a :: later) data st =
     (Ok (Some d),
      advance 1 [HttpGet (url sym); HandleError (ApiError sym msg)] st)) /\
  single_attempt_no_sleep [HttpGet (url sym); HandleError (ApiError sym msg)] /\
  (has_complete_range (read_sql (db st) sym (strftime start) (strftime stop))
                      start stop = false ->
   body sym start stop st =
   (Ok None,
    advance 1 [Printed (FetchingNew sym); HttpGet (url sym);
               HandleError (ApiError sym msg)] st)).
Proof.
  intros Hget Hnote Hprem.
  destruct (note_message _ _ Hnote) as [Hsig Hmsg].
  split; [|split].
  - intros a later data. apply api_call_abort; assumption.
  - split; reflexivity.
  - intros Hmiss. rewrite (body_miss _ _ _ _ Hmiss). cbn [seq].
    rewrite (api_call_abort _ _ _ _ _ (advance 0 _ st) _ _ Hget Hsig Hmsg Hprem).
    rewrite advance_advance. unfold after_call. rewrite Hsig. reflexivity.
Qed.

End RetryTheorems.

(** ** What one symbol can do to the state *)

Lemma processed_app (a b : list event) : processed (a ++ b) = processed a ++ processed b.
Proof.
  induction a as [|e a IH]; simpl; trivial.
  destruct (processing_of e); simpl; now rewrite IH.
Qed.

Lemma requests_app (a b : list event) : requests (a ++ b) = requests a + requests b.
Proof. unfold requests. now rewrite filter_app, length_app. Qed.

Ltac count_requests :=
  cbn [advance calls]; rewrite ?requests_app; unfold requests; simpl; lia.

Section IterationProps.

Context `{Externals}.

Lemma is_error_for_rate_limited (sym msg : string) :
  is_error_for sym (HandleError (RateLimited sym msg)) = true.
Proof. simpl. apply String.eqb_refl. Qed.

Lemma is_error_for_api_error (sym msg : string) :
  is_error_for sym (HandleError (ApiError sym msg)) = true.
Proof. simpl. apply String.eqb_refl. Qed.

Lemma is_error_for_failed (sym : string) (e : exn) :
  is_error_for sym (HandleError (ProcessingFailed sym e)) = true.
Proof. simpl. apply String.eqb_refl. Qed.

(** The retry loop only adds requests, waits and notifications; it starts
    with a request whenever an attempt is left, and a body it returns with
    a signal in it has been notified. *)
Lemma api_call_inv (u sym : string) (attempts : list nat) :
  forall (data : option payload) (st : state) r st',
    api_call u sym attempts data st = (r, st') ->
    exists evs,
      st' = advance (requests evs) evs st /\
      processed evs = [] /\
      (attempts <> [] -> exists evs', evs = HttpGet u :: evs') /\
      (forall d, attempts <> [] -> r = Ok (Some d) -> api_signal d = true ->
                 existsb (is_error_for sym) evs = true).
Proof.
  induction attempts as [|a later IH]; intros data st r st' Hrun.
  - cbn in Hrun. unfold ret in Hrun. injection Hrun as <- <-.
    exists []. rewrite advance_none. repeat split; congruence.
  - destruct (requests_get u (calls st)) as [| |d] eqn:Hget.
    + cbn [api_call] in Hrun. unfold bind, requests_json in Hrun.
      rewrite Hget in Hrun. injection Hrun as <- <-.
      exists [HttpGet u]. repeat split; try discriminate. now exists [].
    + cbn [api_call] in Hrun. unfold bind, requests_json in Hrun.
      rewrite Hget in Hrun. injection Hrun as <- <-.
      exists [HttpGet u]. repeat split; try discriminate. now exists [].
    + destruct (api_signal d) eqn:Hsig.
      * destruct (api_message d) as [msg| |] eqn:Hmsg.
        -- destruct (premium msg) eqn:Hprem.
           ++ rewrite (api_call_retry _ _ _ _ _ _ _ _ Hget Hsig Hmsg Hprem) in Hrun.
              apply IH in Hrun. destruct Hrun as (evs & -> & Hproc & _ & _).
              exists ([HttpGet u; HandleError (RateLimited sym msg); Slept 60] ++ evs).
              rewrite advance_advance.
              repeat split.
              ** rewrite processed_app, Hproc. reflexivity.
              ** intros _. eexists. reflexivity.
              ** intros _ _ _ _. cbn. rewrite String.eqb_refl. reflexivity.
           ++ rewrite (api_call_abort _ _ _ _ _ _ _ _ Hget Hsig Hmsg Hprem) in Hrun.
              injection Hrun as <- <-.
              exists [HttpGet u; HandleError (ApiError sym msg)].
              repeat split.
              ** intros _. eexists. reflexivity.
              ** intros _ _ _ _. cbn. rewrite String.eqb_refl. reflexivity.
        -- cbn [api_call] in Hrun. unfold bind, requests_json in Hrun.
           rewrite Hget, Hsig, Hmsg in Hrun. injection Hrun as <- <-.
           exists [HttpGet u]. repeat split; try discriminate. now exists [].
        -- cbn [api_call] in Hrun. unfold bind, requests_json in Hrun.
           rewrite Hget, Hsig, Hmsg in Hrun. injection Hrun as <- <-.
           exists [HttpGet u]. repeat split; try discriminate. now exists [].
      * rewrite (api_call_success _ _ _ _ _ _ _ Hget Hsig) in Hrun.
        injection Hrun as <- <-.
        exists [HttpGet u]. repeat split.
        -- intros _. now exists [].
        -- intros d0 _ [= <-] Hd0. congruence.
Qed.

(** One run of the [try] block: the events it adds, the requests among
    them, and what it leaves in the table. *)
Lemma body_inv (sym : string) (start stop : Z) (st : state) :
  forall r st',
    body sym start stop st = (r, st') ->
    exists evs,
      log st' = log st ++ evs /\
      calls st' = requests evs + calls st /\
      processed evs = [] /\
      (r = Ok None -> db st' = db st /\ existsb (is_error_for sym) evs = true) /\
      (forall e, r = Raise e -> db st' = db st) /\
      (table_ok (db st) -> table_ok (db st')).
Proof.
  intros r st' Hrun.
  destruct (has_complete_range (read_sql (db st) sym (strftime start) (strftime stop))
              start stop) eqn:Hc.
  - rewrite (body_hit _ _ _ _ Hc) in Hrun. injection Hrun as <- <-.
    exists [Printed (FoundInCache sym)].
    repeat split; trivial; discriminate.
  - rewrite (body_miss _ _ _ _ Hc) in Hrun.
    destruct (api_call (url sym) sym (seq 0 3) None
                (advance 0 [Printed (FetchingNew sym)] st)) as [r1 st1] eqn:Hcall.
    apply api_call_inv in Hcall.
    destruct Hcall as (evs & -> & Hproc & _ & Herr).
    rewrite advance_advance in Hrun.
    assert (Hpr : processed ([Printed (FetchingNew sym)] ++ evs) = [])
      by (rewrite processed_app, Hproc; reflexivity).
    unfold after_call in Hrun.
    destruct r1 as [[d|]|e].
    + destruct (api_signal d) eqn:Hsig.
      * injection Hrun as <- <-.
        exists ([Printed (FetchingNew sym)] ++ evs).
        repeat split; trivial; try discriminate; try count_requests.
        rewrite existsb_app. apply orb_true_iff. right.
        apply (Herr d); trivial. discriminate.
      * destruct (normalize d) as [df|e].
        -- destruct (known_columns df).
           ++ injection Hrun as <- <-.
              exists (([Printed (FetchingNew sym)] ++ evs) ++ [LogCached (List.length df) sym]).
              cbn [advance db calls log].
              repeat split; trivial; try discriminate; try count_requests;
                try (intros; apply upsert_ok; assumption).
              ** rewrite <- !app_assoc. reflexivity.
              ** rewrite processed_app, Hpr. reflexivity.
           ++ injection Hrun as <- <-.
              exists ([Printed (FetchingNew sym)] ++ evs).
              repeat split; trivial; try discriminate; try count_requests.
        -- injection Hrun as <- <-.
           exists ([Printed (FetchingNew sym)] ++ evs).
           repeat split; trivial; try discriminate; try count_requests.
    + injection Hrun as <- <-.
      exists ([Printed (FetchingNew sym)] ++ evs).
      repeat split; trivial; try discriminate; try count_requests.
    + injection Hrun as <- <-.
      exists ([Printed (FetchingNew sym)] ++ evs).
      repeat split; trivial; try discriminate; try count_requests.
Qed.

(** The [try] block with its handler never raises; a symbol that ends
    without a result leaves the table as it was and has been notified. *)
Lemma iteration_inv (sym : string) (start stop : Z) (st : state) :
  exists r st' evs,
    try_except sym (body sym start stop) st = (Ok r, st') /\
    log st' = log st ++ evs /\
    calls st' = requests evs + calls st /\
    processed evs = [] /\
    (r = None -> db st' = db st /\ existsb (is_error_for sym) evs = true) /\
    (table_ok (db st) -> table_ok (db st')).
Proof.
  unfold try_except.
  destruct (body sym start stop st) as [[r|e] st1] eqn:Hrun;
    apply body_inv in Hrun;
    destruct Hrun as (evs & Hlog & Hcalls & Hproc & Hnone & Hraise & Hok).
  - exists r, st1, evs. repeat split; trivial; subst r; now apply Hnone.
  - eexists None, _, (evs ++ [HandleError (ProcessingFailed sym e); LogException sym e]).
    unfold handle_error, bind, emit, ret. cbn [db calls log].
    repeat split.
    + rewrite Hlog, <- !app_assoc. reflexivity.
    + rewrite Hcalls. count_requests.
    + rewrite processed_app, Hproc. reflexivity.
    + apply (Hraise e). reflexivity.
    + rewrite existsb_app. apply orb_true_iff. right.
      cbn. rewrite String.eqb_refl. reflexivity.
    + exact Hok.
Qed.

End IterationProps.

(** ** The loop over the symbols *)

Section BatchProps.

Context `{Externals}.

Lemma dict_set_not_nil {V : Type} (k : string) (v : V) (d : list (string * V)) :
  dict_set k v d <> [].
Proof.
  destruct d as [|[k' v'] d]; simpl; try discriminate.
  destruct (String.eqb k k'); discriminate.
Qed.

Lemma has_key_dict_set {V : Type} (k k' : string) (v : V) (d : list (string * V)) :
  has_key k (dict_set k' v d) = String.eqb k k' || has_key k d.
Proof.
  unfold has_key.
  induction d as [|[k0 v0] d IH]; simpl.
  - reflexivity.
  - destruct (String.eqb_spec k' k0) as [->|Hne]; simpl.
    + destruct (String.eqb k k0); reflexivity.
    + rewrite IH. destruct (String.eqb k k'), (String.eqb k k0); reflexivity.
Qed.

Lemma dict_get_dict_set {V : Type} (k k' : string) (v : V) (d : list (string * V)) :
  dict_get k (dict_set k' v d) = if String.eqb k k' then Some v else dict_get k d.
Proof.
  unfold dict_get.
  induction d as [|[k0 v0] d IH]; simpl.
  - destruct (String.eqb k k'); reflexivity.
  - destruct (String.eqb_spec k' k0) as [->|Hne]; simpl.
    + destruct (String.eqb k k0); reflexivity.
    + destruct (String.eqb_spec k k0) as [->|Hne']; simpl.
      * destruct (String.eqb_spec k0 k') as [->|_]; [contradiction|reflexivity].
      * exact IH.
Qed.

Lemma store_nil_iff (outs : list (string * option frame)) (acc : list (string * frame)) :
  fold_left store outs acc = [] <->
  acc = [] /\ forall o, In o outs -> snd o = None.
Proof.
  revert acc. induction outs as [|[s r] outs IH]; intros acc; simpl.
  - split; [intros ->; split; [reflexivity|contradiction]|tauto].
  - rewrite IH. unfold store. simpl. destruct r as [f|].
    + split.
      * intros [Hset _]. now apply dict_set_not_nil in Hset.
      * intros [_ Hall]. specialize (Hall (s, Some f) (or_introl eq_refl)). discriminate.
    + split.
      * intros [-> Hall]. split; trivial.
        intros o [<-|Ho]; [reflexivity|apply Hall, Ho].
      * intros [-> Hall]. split; trivial. intros o Ho. apply Hall. right. exact Ho.
Qed.

Lemma store_has_key (sym : string) (outs : list (string * option frame))
    (acc : list (string * frame)) :
  has_key sym (fold_left store outs acc) = true <->
  has_key sym acc = true \/ exists f, In (sym, Some f) outs.
Proof.
  revert acc. induction outs as [|[s r] outs IH]; intros acc; simpl.
  - split; [tauto|]. intros [Hk|[f []]]. exact Hk.
  - rewrite IH. unfold store. simpl. destruct r as [f|].
    + rewrite has_key_dict_set, orb_true_iff, String.eqb_eq. split.
      * intros [[->|Hk]|[g Hg]]; eauto.
      * intros [Hk|[g [[= -> ->]|Hg]]]; eauto.
    + split.
      * intros [Hk|[g Hg]]; eauto.
      * intros [Hk|[g [[=]|Hg]]]; eauto.
Qed.

Lemma store_get (sym : string) (f : frame) (outs : list (string * option frame))
    (acc : list (string * frame)) :
  dict_get sym (fold_left store outs acc) = Some f ->
  dict_get sym acc = Some f \/ In (sym, Some f) outs.
Proof.
  revert acc. induction outs as [|[s r] outs IH]; intros acc; simpl.
  - tauto.
  - intros Hget. apply IH in Hget. destruct Hget as [Hget|Hin]; [|tauto].
    unfold store in Hget. simpl in Hget. destruct r as [g|]; [|tauto].
    rewrite dict_get_dict_set in Hget.
    destruct (String.eqb_spec sym s) as [->|Hne]; [|tauto].
    injection Hget as ->. tauto.
Qed.

Variables start stop : Z.

Lemma outcomes_cons (i n : nat) (sym : string) (later : list string) (st : state) :
  outcomes i n (sym :: later) start stop st =
  match try_except sym (body sym start stop)
          (advance 0 [Printed (Processing (S i) n sym)] st) with
  | (Ok r, st2) => (sym, r) :: outcomes (S i) n later start stop st2
  | (Raise _, _) => []
  end.
Proof. reflexivity. Qed.

Lemma for_symbols_cons (i n : nat) (sym : string) (later : list string)
    (acc : list (string * frame)) (st : state) :
  for_symbols i n (sym :: later) start stop acc st =
  match try_except sym (body sym start stop)
          (advance 0 [Printed (Processing (S i) n sym)] st) with
  | (Ok r, st2) => for_symbols (S i) n later start stop (store acc (sym, r)) st2
  | (Raise e, st2) => (Raise e, st2)
  end.
Proof. reflexivity. Qed.

(** The loop runs every symbol, in order, and ends with [all_data] as the
    outcomes build it. *)
Lemma for_symbols_inv (symbols : list string) :
  forall (i n : nat) (acc : list (string * frame)) (st : state),
  exists st' evs,
    for_symbols i n symbols start stop acc st =
    (Ok (fold_left store (outcomes i n symbols start stop st) acc), st') /\
    log st' = log st ++ evs /\
    calls st' = requests evs + calls st /\
    processed evs = symbols /\
    map fst (outcomes i n symbols start stop st) = symbols /\
    (table_ok (db st) -> table_ok (db st')).
Proof.
  induction symbols as [|sym later IH]; intros i n acc st.
  - exists st, []. cbn. rewrite app_nil_r. repeat split; trivial.
  - rewrite outcomes_cons, for_symbols_cons.
    set (st1 := advance 0 [Printed (Processing (S i) n sym)] st).
    destruct (iteration_inv sym start stop st1)
      as (r & st2 & evs & Hrun & Hlog & Hcalls & Hproc & _ & Hok).
    rewrite Hrun.
    destruct (IH (S i) n (store acc (sym, r)) st2)
      as (st' & evs' & Hrun' & Hlog' & Hcalls' & Hproc' & Hfst & Hok').
    exists st', ((Printed (Processing (S i) n sym) :: evs) ++ evs').
    repeat split.
    + exact Hrun'.
    + rewrite Hlog', Hlog. subst st1. cbn [advance log]. now rewrite <- !app_assoc.
    + rewrite Hcalls', Hcalls. subst st1. count_requests.
    + rewrite processed_app, Hproc'. cbn. rewrite Hproc. reflexivity.
    + cbn [map fst]. now rewrite Hfst.
    + intros Ht. apply Hok', Hok, Ht.
Qed.


Lemma store_length (outs : list (string * option frame)) (acc : list (string * frame)) :
  List.length (fold_left store outs acc) <= List.length acc + List.length outs.
Proof.
  revert acc. induction outs as [|[s r] outs IH]; intros acc; simpl.
  - lia.
  - specialize (IH (store acc (s, r))).
    assert (Hlen : List.length (store acc (s, r)) <= S (List.length acc)).
    { unfold store. simpl. destruct r as [f|]; [|lia].
      clear IH. induction acc as [|[k v] acc IHacc]; simpl; [lia|].
      destruct (String.eqb s k); simpl; lia. }
    lia.
Qed.


Lemma same_columns_refl (l : list string) : same_columns l l = true.
Proof.
  induction l as [|x l IH]; simpl; [reflexivity|].
  now rewrite String.eqb_refl, IH.
Qed.

(** Stacking fails only when there are at least two frames. *)
Lemma concat_fails_two (frames : list frame) :
  concat_fails frames = true -> 2 <= List.length frames.
Proof.
  destruct frames as [|f [|g rest]]; simpl; try discriminate; try lia.
  rewrite same_columns_refl. simpl. rewrite andb_false_r. discriminate.
Qed.

Lemma fetch_inv (symbols : list string) (st : state) :
  let outs := outcomes 0 (List.length symbols) symbols start stop
                (advance 0 [Printed Initiating] st) in
  exists st' evs,
    fetch_stock_data symbols start stop st =
    (match collect outs with
     | [] => Ok None
     | _ :: _ =>
         if concat_fails (map snd (collect outs)) then Raise InvalidIndexError
         else Ok (Some (map snd (collect outs)))
     end, st') /\
    log st' = log st ++ evs /\
    calls st' = requests evs + calls st /\
    processed evs = symbols /\
    map fst outs = symbols /\
    (table_ok (db st) -> table_ok (db st')).
Proof.
  intros outs. unfold fetch_stock_data. unfold bind at 1. unfold emit at 1.
  change {| db := db st; calls := calls st; log := log st ++ [Printed Initiating] |}
    with (advance 0 [Printed Initiating] st).
  destruct (for_symbols_inv symbols 0 (List.length symbols) [] (advance 0 [Printed Initiating] st))
    as (st1 & evs & Hrun & Hlog & Hcalls & Hproc & Hfst & Hok).
  unfold bind at 1. rewrite Hrun. fold outs. fold (collect outs).
  destruct (collect outs) as [|p rest] eqn:Hcol.
  - eexists _, ((Printed Initiating :: evs) ++ [HandleError NoData]).
    unfold handle_error, bind, emit, ret. cbn [db calls log].
    repeat split; trivial.
    + rewrite Hlog. cbn [advance log]. now rewrite <- !app_assoc.
    + rewrite Hcalls. count_requests.
    + rewrite processed_app. cbn. rewrite Hproc. apply app_nil_r.
  - destruct (concat_fails (map snd (p :: rest))).
    + exists st1, (Printed Initiating :: evs).
      unfold raise.
      repeat split; trivial.
      rewrite Hlog. cbn [advance log]. now rewrite <- !app_assoc.
    + eexists _, ((Printed Initiating :: evs) ++ [Printed Complete]).
      unfold bind, emit, ret. cbn [db calls log].
      repeat split; trivial.
      * rewrite Hlog. cbn [advance log]. now rewrite <- !app_assoc.
      * rewrite Hcalls. count_requests.
      * rewrite processed_app. cbn. rewrite Hproc. apply app_nil_r.
Qed.


End BatchProps.

(** ** Failure isolation and the result of a batch *)

Section BatchTheorems.

Context `{Externals}.


(** C5. The result is [None] exactly when no symbol of the batch
    contributed a frame.  Otherwise the call goes on to stack the frames of
    [all_data], which holds an entry for exactly the symbols that
    contributed one, each entry being a frame that symbol contributed: it
    returns them when [pd.concat] takes them, and raises the
    [InvalidIndexError] of [pd.concat] when it does not, although symbols
    succeeded.  For an empty list of symbols the result is [None]. *)
Theorem no_data_iff_no_success (symbols : list string) (start stop : Z) (st : state) :
  let outs := outcomes 0 (List.length symbols) symbols start stop
                (advance 0 [Printed Initiating] st) in
  let frames := map snd (collect outs) in
  let returned := fst (fetch_stock_data symbols start stop st) in
  map fst outs = symbols /\
  (returned = Ok None <-> forall o, In o outs -> snd o = None) /\
  ((exists o, In o outs /\ snd o <> None) ->
   returned = if concat_fails frames then Raise InvalidIndexError
              else Ok (Some frames)) /\
  (forall sym, has_key sym (collect outs) = true <-> exists f, In (sym, Some f) outs) /\
  (forall sym f, dict_get sym (collect outs) = Some f -> In (sym, Some f) outs) /\
  fst (fetch_stock_data [] start stop st) = Ok None.
Proof.
  intros outs frames returned.
  destruct (fetch_inv start stop symbols st)
    as (st' & evs & Hrun & _ & _ & _ & Hfst & _).
  fold outs frames in Hrun, Hfst.
  assert (Hret : returned = match collect outs with
                            | [] => Ok None
                            | _ :: _ =>
                                if concat_fails frames then Raise InvalidIndexError
                                else Ok (Some frames)
                            end).
  { unfold returned. rewrite Hrun. reflexivity. }
  split; [exact Hfst|]. split; [|split; [|split; [|split]]].
  - rewrite Hret. split.
    + destruct (collect outs) eqn:Hcol.
      * intros _. unfold collect in Hcol. apply store_nil_iff in Hcol. apply Hcol.
      * destruct (concat_fails frames); discriminate.
    + intros Hall.
      assert (Hcol : collect outs = [])
        by (apply store_nil_iff; split; trivial).
      rewrite Hcol. reflexivity.
  - intros (o & Hin & Hsome). rewrite Hret.
    destruct (collect outs) eqn:Hcol; [|reflexivity].
    unfold collect in Hcol. apply store_nil_iff in Hcol.
    destruct Hcol as [_ Hall]. now apply Hall in Hin.
  - intros sym. unfold collect. rewrite store_has_key. simpl.
    split; [intros [Hk|Hex]; [discriminate|exact Hex]|intros Hex; right; exact Hex].
  - intros sym f Hget. unfold collect in Hget.
    apply store_get in Hget. destruct Hget as [Hget|Hin]; [discriminate|exact Hin].
  - reflexivity.
Qed.

Lemma cells_to_numeric_none (cs : list (string * string)) (c v : string) :
  In (c, v) cs -> to_numeric v = None -> cells_to_numeric cs = None.
Proof.
  intros Hin Hv.
  induction cs as [|[c' v'] cs IH]; [contradiction|].
  simpl. destruct Hin as [[= -> ->]|Hin].
  - rewrite Hv. reflexivity.
  - rewrite (IH Hin). destruct (to_numeric v'); reflexivity.
Qed.

Lemma apply_to_numeric_none (rows : list (frame_row string)) (r : frame_row string) :
  In r rows -> cells_to_numeric (cells r) = None -> apply_to_numeric rows = None.
Proof.
  intros Hin Hr.
  induction rows as [|r' rows IH]; [contradiction|].
  simpl. destruct Hin as [->|Hin].
  - rewrite Hr. reflexivity.
  - rewrite (IH Hin). destruct (cells_to_numeric (cells r')); reflexivity.
Qed.

Lemma index_to_datetime_In (rows : series) (df : list (frame_row string))
    (label : string) (fields : list (string * string)) :
  index_to_datetime rows = Some df -> In (label, fields) rows ->
  exists t, In {| index := t; cells := fields |} df.
Proof.
  revert df. induction rows as [|[l fs] rows IH]; intros df Hdf Hin; [contradiction|].
  simpl in Hdf.
  destruct (to_datetime l) as [t|]; [|discriminate].
  destruct (index_to_datetime rows) as [df'|]; [|discriminate].
  injection Hdf as <-.
  destruct Hin as [[= -> ->]|Hin].
  - exists t. left. reflexivity.
  - destruct (IH df' eq_refl Hin) as [t' Ht']. exists t'. right. exact Ht'.
Qed.

(** A series with a cell that is no number does not become a frame. *)
Lemma normalize_bad_cell (d : payload) (k : string) (rows : series)
    (label : string) (fields : list (string * string)) (c v : string) :
  find_series_key d = Some k -> dict_get k d = Some (JSeries rows) ->
  In (label, fields) rows -> In (c, v) fields -> to_numeric v = None ->
  normalize d = Raise ValueError.
Proof.
  intros Hk Hd Hrow Hcell Hv. unfold normalize. rewrite Hk, Hd.
  destruct (index_to_datetime rows) as [df|] eqn:Hdf; trivial.
  destruct (index_to_datetime_In _ _ _ _ Hdf Hrow) as [t Ht].
  rewrite (apply_to_numeric_none (rename_columns df)
             {| index := t;
                cells := map (fun kv => (rename_column (fst kv), snd kv)) fields |}).
  - reflexivity.
  - unfold rename_columns. apply in_map_iff.
    exists {| index := t; cells := fields |}. split; trivial.
  - apply (cells_to_numeric_none _ (rename_column c) v); trivial.
    cbn [cells]. apply in_map_iff. exists (c, v). split; trivial.
Qed.

(** C9. Normalization atomicity: when the cache is incomplete and the
    retry loop hands back a body without a signal that has no key
    containing "Time Series" or "Digital Currency", or whose series has a
    cell that is no number, the [try] block raises before the upsert: the
    table is the one the symbol started with, the symbol ends without a
    result, and the failure is notified in its name. *)
Theorem normalization_failure_inserts_nothing (sym : string) (start stop : Z)
    (st st1 : state) (d : payload) :
  has_complete_range (read_sql (db st) sym (strftime start) (strftime stop))
                     start stop = false ->
  api_call (url sym) sym (seq 0 3) None
    (advance 0 [Printed (FetchingNew sym)] st) = (Ok (Some d), st1) ->
  api_signal d = false ->
  (find_series_key d = None \/
   exists k rows label fields c v,
     find_series_key d = Some k /\ dict_get k d = Some (JSeries rows) /\
     In (label, fields) rows /\ In (c, v) fields /\ to_numeric v = None) ->
  exists e,
    body sym start stop st = (Raise e, st1) /\
    db st1 = db st /\
    try_except sym (body sym start stop) st =
    (Ok None,
     advance 0 [HandleError (ProcessingFailed sym e); LogException sym e] st1) /\
    db (advance 0 [HandleError (ProcessingFailed sym e); LogException sym e] st1)
    = db st.
Proof.
  intros Hmiss Hcall Hsig Hbad.
  assert (Hnorm : exists e, normalize d = Raise e).
  { destruct Hbad as [Hnone|(k & rows & label & fields & c & v & Hk & Hd & Hr & Hc & Hv)].
    - exists StopIteration. unfold normalize. rewrite Hnone. reflexivity.
    - exists ValueError. eapply normalize_bad_cell; eassumption. }
  destruct Hnorm as [e He]. exists e.
  assert (Hbody : body sym start stop st = (Raise e, st1)).
  { rewrite (body_miss _ _ _ _ Hmiss), Hcall. unfold after_call.
    rewrite Hsig, He. reflexivity. }
  assert (Hdb : db st1 = db st).
  { apply api_call_inv in Hcall. destruct Hcall as (evs & -> & _). reflexivity. }
  repeat split; trivial.
  unfold try_except. rewrite Hbody.
  unfold handle_error, bind, emit, ret. cbn [db calls log].
  f_equal. same_state.
Qed.

End BatchTheorems.

(** ** The cache check *)

Section CacheProps.

Context `{Externals}.



Section Range.

Variables start stop : Z.

Lemma iteration_hit (sym : string) (st : state) :
  has_complete_range (read_sql (db st) sym (strftime start) (strftime stop))
                     start stop = true ->
  try_except sym (body sym start stop) st =
  (Ok (Some (Cached (read_sql (db st) sym (strftime start) (strftime stop)))),
   advance 0 [Printed (FoundInCache sym)] st).
Proof.
  intros Hc. unfold try_except. rewrite (body_hit _ _ _ _ Hc). reflexivity.
Qed.



End Range.

End CacheProps.

(** ** The request *)

Lemma prefix_contains (needle hay : string) :
  prefix needle hay = true -> PyStr.contains needle hay = true.
Proof. intros Hp. destruct hay; cbn [PyStr.contains]; rewrite Hp; reflexivity. Qed.

Lemma contains_tail (needle : string) (c : ascii) (rest : string) :
  PyStr.contains needle (String c rest) = false ->
  PyStr.contains needle rest = false.
Proof.
  cbn [PyStr.contains]. intros Hc. apply orb_false_iff in Hc. apply Hc.
Qed.

Lemma prefix_dash_usd (c : ascii) (rest : string) :
  prefix "-USD" (String c rest) = true ->
  c = "-"%char /\ prefix "USD" rest = true.
Proof.
  cbn [prefix]. destruct (ascii_dec "-" c) as [<-|]; [|discriminate].
  intros Hp. split; [reflexivity|exact Hp].
Qed.

Lemma replace_from_keep (old new : string) (c : ascii) (rest : string) :
  prefix old (String c rest) = false ->
  PyStr.replace_from old new 0 (String c rest) =
  String c (PyStr.replace_from old new 0 rest).
Proof. intros Hp. cbn [PyStr.replace_from]. rewrite Hp. reflexivity. Qed.

(** Without "USD" in it a symbol has no "-USD" to replace. *)
Lemma replace_without_usd (s : string) :
  PyStr.contains "USD" s = false -> PyStr.replace "-USD" "" s = s.
Proof.
  unfold PyStr.replace.
  induction s as [|c rest IH]; intros Hc; [reflexivity|].
  pose proof (contains_tail _ _ _ Hc) as Hrest.
  rewrite replace_from_keep, (IH Hrest); [reflexivity|].
  destruct (prefix "-USD" (String c rest)) eqn:Hp; [|reflexivity].
  apply prefix_dash_usd in Hp. destruct Hp as [_ Hp].
  apply prefix_contains in Hp. congruence.
Qed.

(** After a base without a hyphen, the replacement strips the suffix. *)
Lemma replace_strips_suffix (base : string) :
  PyStr.contains "-" base = false ->
  PyStr.replace "-USD" "" (base ++ "-USD") = base.
Proof.
  unfold PyStr.replace.
  induction base as [|c rest IH]; intros Hc; [reflexivity|].
  pose proof (contains_tail _ _ _ Hc) as Hrest.
  cbn [append]. rewrite replace_from_keep, (IH Hrest); [reflexivity|].
  destruct (prefix "-USD" (String c (rest ++ "-USD"))) eqn:Hp; [|reflexivity].
  apply prefix_dash_usd in Hp. destruct Hp as [-> _].
  cbn [PyStr.contains prefix] in Hc.
  destruct (ascii_dec "-" "-") as [_|Hn]; [|now elim Hn].
  destruct rest; discriminate Hc.
Qed.

Section RequestTheorems.

Context `{Externals}.

(** C8, as amended. The request follows a three-way split on the symbol:
    with "USD" in it, DIGITAL_CURRENCY_DAILY with market USD and, as base
    symbol, the symbol with every occurrence of "-USD" removed; otherwise
    with "EUR" in it, FX_DAILY with the symbol itself and market USD; in
    every other case TIME_SERIES_DAILY_ADJUSTED with the symbol and
    outputsize full, which no other case sends.  For a symbol made of a
    base without a hyphen followed by "-USD", removing the occurrences
    strips the suffix. *)
Theorem query_case_split (sym : string) :
  query sym =
  (if PyStr.contains "USD" sym then
     [ ("function", "DIGITAL_CURRENCY_DAILY");
       ("symbol", PyStr.replace "-USD" "" sym);
       ("market", "USD"); ("apikey", API_KEY) ]
   else if PyStr.contains "EUR" sym then
     [ ("function", "FX_DAILY"); ("symbol", sym);
       ("market", "USD"); ("apikey", API_KEY) ]
   else
     [ ("function", "TIME_SERIES_DAILY_ADJUSTED"); ("symbol", sym);
       ("outputsize", "full"); ("apikey", API_KEY) ]) /\
  (has_key "outputsize" (query sym) =
   negb (PyStr.contains "USD" sym || PyStr.contains "EUR" sym)) /\
  (forall base,
     PyStr.contains "-" base = false ->
     PyStr.contains "USD" (base ++ "-USD") = true /\
     dict_get "symbol" (query (base ++ "-USD")) = Some base).
Proof.
  split; [|split].
  - unfold query, api_function.
    destruct (PyStr.contains "USD" sym) eqn:Husd; cbn [orb].
    + reflexivity.
    + destruct (PyStr.contains "EUR" sym); [|reflexivity].
      rewrite (replace_without_usd _ Husd). reflexivity.
  - unfold query.
    destruct (PyStr.contains "USD" sym || PyStr.contains "EUR" sym); reflexivity.
  - intros base Hbase.
    assert (Husd : PyStr.contains "USD" (base ++ "-USD") = true).
    { clear Hbase. induction base as [|c rest IH]; [reflexivity|].
      cbn [append PyStr.contains]. rewrite IH. apply orb_true_r. }
    split; [exact Husd|].
    unfold query. rewrite Husd. cbn [orb].
    rewrite (replace_strips_suffix _ Hbase). reflexivity.
Qed.

(** The table stays in key order through a whole batch. *)
Lemma fetch_keeps_table_ok (symbols : list string) (start stop : Z) (st : state) :
  table_ok (db st) -> table_ok (db (snd (fetch_stock_data symbols start stop st))).
Proof.
  intros Ht.
  destruct (fetch_inv start stop symbols st) as (st' & evs & Hrun & _ & _ & _ & _ & Hok).
  rewrite Hrun. apply Hok, Ht.
Qed.

End RequestTheorems.

(** ** The properties at work in the concrete environment *)

Section DemoRuns.

#[local] Existing Instance Demo.env.

Example demo_partial_failure :
  match fetch_stock_data ["AAPL"; "NOPE123"] Demo.jan1 Demo.jan3 Demo.empty_state with
  | (Ok (Some [Fresh "AAPL" columns rows]), st) =>
      columns = ["open"; "close"; "volume"; "symbol"] /\
      List.length rows = 3 /\ calls st = 2 /\ List.length (db st) = 3
  | _ => False
  end.
Proof. vm_compute. repeat split. Qed.

Example demo_body_raises :
  fst (body "DOWN" Demo.jan1 Demo.jan3 Demo.empty_state) = Raise RequestError.
Proof. reflexivity. Qed.

Example demo_batch_survives :
  fst (fetch_stock_data ["DOWN"; "EMPTY"; "BADCELL"] Demo.jan1 Demo.jan3 Demo.empty_state)
  = Ok None.
Proof. reflexivity. Qed.

(** A second call for the same symbol and range asks the API again: the
    rows of the first call are stored with the time of day. *)
Example demo_second_call :
  let st1 := snd (fetch_stock_data ["BTC-USD"] Demo.jan1 Demo.jan3 Demo.empty_state) in
  let st2 := snd (fetch_stock_data ["BTC-USD"] Demo.jan1 Demo.jan3 st1) in
  map date (db st1) =
  ["2024-01-01 00:00:00"; "2024-01-02 00:00:00"; "2024-01-03 00:00:00"] /\
  calls st1 = 1 /\ calls st2 = 2 /\ db st2 = db st1.
Proof. repeat split; reflexivity. Qed.

Example demo_premium_note_events :
  filter (fun e => is_http e || is_sleep e)
         (log (snd (body "IBM" Demo.jan1 Demo.jan3 Demo.empty_state))) =
  [ HttpGet (url "IBM"); Slept 60; HttpGet (url "IBM"); Slept 60;
    HttpGet (url "IBM"); Slept 60 ].
Proof. vm_compute. reflexivity. Qed.

Lemma premium_note_three_attempts_witness :
  has_complete_range (read_sql (db Demo.empty_state) "IBM"
                        (strftime Demo.jan1) (strftime Demo.jan3))
                     Demo.jan1 Demo.jan3 = false /\
  List.length (filter is_http
                 (log (snd (body "IBM" Demo.jan1 Demo.jan3 Demo.empty_state)))) = 3 /\
  List.length (filter is_sleep
                 (log (snd (body "IBM" Demo.jan1 Demo.jan3 Demo.empty_state)))) = 3.
Proof.
  split; [reflexivity|].
  destruct (premium_note_three_attempts "IBM" Demo.jan1 Demo.jan3 Demo.empty_state
              (fun _ => Demo.premium_note)
              (fun _ => "Thank you for using Alpha Vantage! Please visit the Premium page to raise your call frequency."))
    as [Hrun _].
  - reflexivity.
  - intros n. repeat split; reflexivity.
  - rewrite Hrun. split; reflexivity.
Defined.

(** The claim of C3 at a reply with "Error Message", no "Note" and
    "premium" in the text: the symbol is not done after one attempt without
    a wait. *)
Lemma hard_error_premium_is_retried :
  has_key "Error Message" Demo.premium_error = true /\
  has_key "Note" Demo.premium_error = false /\
  requests_get (url "PREM") 0 = Object Demo.premium_error /\
  ~ single_attempt_no_sleep
      (log (snd (body "PREM" Demo.jan1 Demo.jan3 Demo.empty_state))).
Proof.
  repeat split; try reflexivity.
  intros [Hone _]. vm_compute in Hone. discriminate Hone.
Qed.

Lemma hard_error_aborts_witness :
  requests_get (url "NOPE123") (calls Demo.empty_state) = Object Demo.invalid_call /\
  body "NOPE123" Demo.jan1 Demo.jan3 Demo.empty_state =
  (Ok None,
   advance 1 [Printed (FetchingNew "NOPE123"); HttpGet (url "NOPE123");
              HandleError (ApiError "NOPE123" "Invalid API call.")]
     Demo.empty_state).
Proof.
  split; [reflexivity|].
  destruct (hard_error_aborts "NOPE123" Demo.jan1 Demo.jan3 Demo.empty_state
              Demo.invalid_call "Invalid API call.") as (_ & _ & Hrun);
    [reflexivity|reflexivity|reflexivity|reflexivity|].
  apply Hrun. reflexivity.
Defined.

Lemma plain_note_aborts_witness :
  requests_get (url "MSFT") (calls Demo.empty_state) = Object Demo.plain_note /\
  body "MSFT" Demo.jan1 Demo.jan3 Demo.empty_state =
  (Ok None,
   advance 1 [Printed (FetchingNew "MSFT"); HttpGet (url "MSFT");
              HandleError (ApiError "MSFT" "Our standard API call frequency is 5 calls per minute.")]
     Demo.empty_state).
Proof.
  split; [reflexivity|].
  destruct (plain_note_aborts "MSFT" Demo.jan1 Demo.jan3 Demo.empty_state
              Demo.plain_note "Our standard API call frequency is 5 calls per minute.")
    as (_ & _ & Hrun); [reflexivity|reflexivity|reflexivity|].
  apply Hrun. reflexivity.
Defined.


Lemma upsert_idempotent_witness :
  table_ok Demo.aapl_days /\
  upsert Demo.batch (upsert Demo.batch Demo.aapl_days) = upsert Demo.batch Demo.aapl_days.
Proof.
  assert (Hok : table_ok Demo.aapl_days).
  { unfold table_ok, Demo.aapl_days. repeat (constructor; try reflexivity). }
  split; [exact Hok|].
  destruct (upsert_idempotent Demo.batch Demo.aapl_days Hok) as [Hsame _]. exact Hsame.
Defined.

(** The claim of C8 at BTC-USDT, a symbol with "USD" in it: the base
    symbol of the request is BTCT, not the symbol less a trailing "-USD". *)
Lemma base_symbol_not_suffix_strip :
  PyStr.contains "USD" "BTC-USDT" = true /\
  dict_get "symbol" (query "BTC-USDT") = Some "BTCT" /\
  PyStr.strip_suffix "-USD" "BTC-USDT" = "BTC-USDT" /\
  ~ base_symbol_as_suffix_strip "BTC-USDT".
Proof.
  repeat split; try reflexivity.
  unfold base_symbol_as_suffix_strip. intros Heq. vm_compute in Heq. discriminate Heq.
Qed.

Lemma query_case_split_witness :
  PyStr.contains "-" "BTC" = false /\
  dict_get "symbol" (query "BTC-USD") = Some "BTC".
Proof.
  split; [reflexivity|].
  destruct (query_case_split "BTC-USD") as (_ & _ & Hstrip).
  destruct (Hstrip "BTC" eq_refl) as [_ Hbase]. exact Hbase.
Defined.

Lemma normalization_failure_inserts_nothing_witness :
  api_signal Demo.bad_cell_body = false /\
  to_numeric "n/a" = None /\
  try_except "BADCELL" (body "BADCELL" Demo.jan1 Demo.jan3) Demo.warm_state =
  (Ok None,
   advance 1 [ Printed (FetchingNew "BADCELL"); HttpGet (url "BADCELL");
               HandleError (ProcessingFailed "BADCELL" ValueError);
               LogException "BADCELL" ValueError ] Demo.warm_state).
Proof.
  split; [reflexivity|]. split; [reflexivity|].
  destruct (normalization_failure_inserts_nothing "BADCELL" Demo.jan1 Demo.jan3
              Demo.warm_state
              (advance 1 [Printed (FetchingNew "BADCELL"); HttpGet (url "BADCELL")]
                 Demo.warm_state)
              Demo.bad_cell_body) as (e & Hbody & _ & Htry & _).
  - reflexivity.
  - reflexivity.
  - reflexivity.
  - right.
    exists "Time Series (Daily)",
           [("2024-01-02", [("1. open", "100.0"); ("4. close", "n/a")])],
           "2024-01-02", [("1. open", "100.0"); ("4. close", "n/a")],
           "4. close", "n/a".
    repeat split; try reflexivity.
    + left. reflexivity.
    + right. left. reflexivity.
  - rewrite Htry.
    assert (He : Raise e = @Raise (option frame) ValueError).
    { change (Raise ValueError)
        with (fst (body "BADCELL" Demo.jan1 Demo.jan3 Demo.warm_state)).
      rewrite Hbody. reflexivity. }
    injection He as ->. reflexivity.
Defined.

End DemoRuns.

(** * Further properties of the fetcher and of the handlers *)

(** ** What an upsert can add and what it keeps *)

Section KeySet.

Context `{Externals}.

Lemma insert_or_replace_In_inv (x r : PriceBar) (t : table) :
  In x (insert_or_replace r t) -> x = r \/ In x t.
Proof.
  induction t as [|y rest IH]; simpl.
  - intros [<-|[]]. left. reflexivity.
  - destruct (key_compare (key r) (key y)); simpl.
    + intros [<-|Hin]; [left; reflexivity|right; right; exact Hin].
    + intros [<-|Hin]; [left; reflexivity|right; exact Hin].
    + intros [<-|Hin]; [right; left; reflexivity|].
      destruct (IH Hin) as [->|Hrest]; [left; reflexivity|right; right; exact Hrest].
Qed.

Lemma insert_or_replace_In_new (r : PriceBar) (t : table) :
  In r (insert_or_replace r t).
Proof.
  induction t as [|y rest IH]; simpl.
  - left. reflexivity.
  - destruct (key_compare (key r) (key y)); simpl; auto.
Qed.

Lemma insert_or_replace_keeps (x r : PriceBar) (t : table) :
  In x t -> exists y, In y (insert_or_replace r t) /\ key y = key x.
Proof.
  induction t as [|z rest IH]; simpl; [contradiction|].
  intros Hin.
  destruct (key_compare (key r) (key z)) eqn:E.
  - destruct Hin as [<-|Hin].
    + exists r. split; [left; reflexivity|apply key_compare_eq, E].
    + exists x. split; [right; exact Hin|reflexivity].
  - exists x. split; [right; exact Hin|reflexivity].
  - destruct Hin as [<-|Hin].
    + exists z. split; [left; reflexivity|reflexivity].
    + destruct (IH Hin) as (y & Hy & Hk). exists y. split; [right; exact Hy|exact Hk].
Qed.

Lemma stored_key (t : table) (sym d : string) :
  stored t sym d <-> exists x, In x t /\ key x = (sym, d).
Proof.
  unfold stored, key. split; intros (x & Hx & Hk).
  - destruct Hk as [<- <-]. exists x. split; trivial.
  - injection Hk as <- <-. exists x. repeat split; trivial.
Qed.

Lemma stored_insert (r : PriceBar) (t : table) (sym d : string) :
  stored (insert_or_replace r t) sym d <->
  stored t sym d \/ (symbol r = sym /\ date r = d).
Proof.
  split.
  - intros (x & Hx & Hs & Hd).
    destruct (insert_or_replace_In_inv _ _ _ Hx) as [->|Hin].
    + right. split; assumption.
    + left. exists x. repeat split; assumption.
  - intros [Hst|[Hs Hd]].
    + apply stored_key in Hst. destruct Hst as (x & Hx & Hk).
      destruct (insert_or_replace_keeps x r t Hx) as (y & Hy & Hky).
      apply stored_key. exists y. split; [exact Hy|congruence].
    + exists r. repeat split; trivial. apply insert_or_replace_In_new.
Qed.

(** X1. For a batch of rows of the shape of the table (symbol, date and
    the six value columns, no rowid among them), the keys after the upsert
    are the keys before it and the keys of the batch: no stored (symbol,
    date) is lost and none appears that the batch does not carry. *)
Theorem upsert_stored (rows : list PriceBar) (t : table) (sym d : string) :
  stored (upsert rows t) sym d <->
  stored t sym d \/ exists r, In r rows /\ symbol r = sym /\ date r = d.
Proof.
  unfold upsert. revert t.
  induction rows as [|r rows IH]; intros t; simpl.
  - split; [tauto|]. intros [Hst|(r & [] & _)]. exact Hst.
  - rewrite IH, stored_insert. split.
    + intros [[Hst|[Hs Hd]]|(x & Hx & Hs & Hd)].
      * left. exact Hst.
      * right. exists r. auto.
      * right. exists x. auto.
    + intros [Hst|(x & [<-|Hx] & Hs & Hd)].
      * left. left. exact Hst.
      * left. right. split; assumption.
      * right. exists x. auto.
Qed.



End KeySet.

(** ** The table through a symbol and through a batch *)

Section TableThroughBatch.

Context `{Externals}.

Variables start stop : Z.



(** A property of pairs of states that holds of no step at all and is
    carried over one symbol's turn holds of the whole loop. *)
Lemma for_symbols_rel (R : list string -> state -> state -> Prop) :
  (forall st, R [] st st) ->
  (forall i n sym later st st1 st2 r,
     try_except sym (body sym start stop)
       (advance 0 [Printed (Processing (S i) n sym)] st) = (r, st1) ->
     R later st1 st2 -> R (sym :: later) st st2) ->
  forall symbols i n acc st,
    R symbols st (snd (for_symbols i n symbols start stop acc st)).
Proof.
  intros Hnil Hstep symbols.
  induction symbols as [|sym later IH]; intros i n acc st.
  - apply Hnil.
  - rewrite for_symbols_cons.
    destruct (iteration_inv sym start stop
                (advance 0 [Printed (Processing (S i) n sym)] st))
      as (r & st1 & evs & Hrun & _).
    rewrite Hrun. eapply Hstep; [exact Hrun|apply IH].
Qed.

Lemma fetch_snd (symbols : list string) (st : state) :
  exists tail,
    snd (fetch_stock_data symbols start stop st) =
    advance 0 tail
      (snd (for_symbols 0 (List.length symbols) symbols start stop []
              (advance 0 [Printed Initiating] st))) /\
    (tail = [HandleError NoData] \/ tail = [Printed Complete] \/ tail = []).
Proof.
  unfold fetch_stock_data. unfold bind at 1. unfold emit at 1.
  change {| db := db st; calls := calls st; log := log st ++ [Printed Initiating] |}
    with (advance 0 [Printed Initiating] st).
  unfold bind at 1.
  destruct (for_symbols 0 (List.length symbols) symbols start stop []
              (advance 0 [Printed Initiating] st)) as [[all_data|e] st1].
  - destruct all_data as [|p rest].
    + exists [HandleError NoData]. split; [reflexivity|tauto].
    + destruct (concat_fails (map snd (p :: rest))).
      * exists []. cbn [snd raise]. rewrite advance_none. split; [reflexivity|tauto].
      * exists [Printed Complete]. split; [reflexivity|tauto].
  - exists []. cbn [snd]. rewrite advance_none. split; [reflexivity|tauto].
Qed.



End TableThroughBatch.

(** ** The cache check on the rows of the fetcher *)

Section OwnRows.

Context `{Externals}.




End OwnRows.

(** ** How many requests and how long a wait *)

Lemma seconds_slept_app (a b : list event) :
  seconds_slept (a ++ b) = seconds_slept a + seconds_slept b.
Proof. unfold seconds_slept. now rewrite map_app, list_sum_app. Qed.

Lemma retry_events_shift (u sym : string) (msg : nat -> string) (c a k : nat) :
  flat_map (fun i => [HttpGet u; HandleError (RateLimited sym (msg (i + c))); Slept 60])
           (seq (S a) k) =
  flat_map (fun i => [HttpGet u; HandleError (RateLimited sym (msg (i + S c))); Slept 60])
           (seq a k).
Proof.
  revert a. induction k as [|k IH]; intros a; simpl; trivial.
  rewrite IH. now rewrite Nat.add_succ_r.
Qed.

Lemma retry_events_S (u sym : string) (msg : nat -> string) (c k : nat) :
  retry_events u sym msg c (S k) =
  [HttpGet u; HandleError (RateLimited sym (msg c)); Slept 60]
  ++ retry_events u sym msg (S c) k.
Proof.
  unfold retry_events. cbn [seq flat_map]. rewrite retry_events_shift. reflexivity.
Qed.

Section Bounds.

Context `{Externals}.

Ltac bound_events :=
  repeat split;
  [ unfold requests; simpl; lia
  | unfold seconds_slept; simpl; lia
  | intros ev Hev Hhttp; simpl in Hev;
    repeat (destruct Hev as [<-|Hev]; [first [reflexivity|discriminate Hhttp]|]);
    contradiction ].

(** The retry loop makes at most one request per attempt and waits at most
    60 seconds per attempt; all its requests go to the one URL. *)
Lemma api_call_bound (u sym : string) (attempts : list nat) :
  forall (data : option payload) (st : state) r st',
    api_call u sym attempts data st = (r, st') ->
    exists evs,
      st' = advance (requests evs) evs st /\
      requests evs <= List.length attempts /\
      seconds_slept evs <= 60 * List.length attempts /\
      (forall e, In e evs -> is_http e = true -> e = HttpGet u).
Proof.
  induction attempts as [|a later IH]; intros data st r st' Hrun.
  - cbn in Hrun. unfold ret in Hrun. injection Hrun as <- <-.
    exists []. rewrite advance_none. repeat split; trivial. intros e [].
  - cbn [List.length].
    destruct (requests_get u (calls st)) as [| |d] eqn:Hget.
    + cbn [api_call] in Hrun. unfold bind, requests_json in Hrun.
      rewrite Hget in Hrun. injection Hrun as <- <-.
      exists [HttpGet u]. bound_events.
    + cbn [api_call] in Hrun. unfold bind, requests_json in Hrun.
      rewrite Hget in Hrun. injection Hrun as <- <-.
      exists [HttpGet u]. bound_events.
    + destruct (api_signal d) eqn:Hsig.
      * destruct (api_message d) as [msg| |] eqn:Hmsg.
        -- destruct (premium msg) eqn:Hprem.
           ++ rewrite (api_call_retry _ _ _ _ _ _ _ _ Hget Hsig Hmsg Hprem) in Hrun.
              apply IH in Hrun. destruct Hrun as (evs & -> & Hreq & Hsec & Hurl).
              exists ([HttpGet u; HandleError (RateLimited sym msg); Slept 60] ++ evs).
              rewrite advance_advance. repeat split.
              ** rewrite requests_app. unfold requests at 1. simpl. lia.
              ** rewrite seconds_slept_app. unfold seconds_slept at 1. simpl. lia.
              ** intros e He Hhttp. apply in_app_or in He.
                 destruct He as [He|He]; [|apply Hurl; assumption].
                 simpl in He.
                 repeat (destruct He as [<-|He]; [first [reflexivity|discriminate Hhttp]|]).
                 contradiction.
           ++ rewrite (api_call_abort _ _ _ _ _ _ _ _ Hget Hsig Hmsg Hprem) in Hrun.
              injection Hrun as <- <-.
              exists [HttpGet u; HandleError (ApiError sym msg)]. bound_events.
        -- cbn [api_call] in Hrun. unfold bind, requests_json in Hrun.
           rewrite Hget, Hsig, Hmsg in Hrun. injection Hrun as <- <-.
           exists [HttpGet u]. bound_events.
        -- cbn [api_call] in Hrun. unfold bind, requests_json in Hrun.
           rewrite Hget, Hsig, Hmsg in Hrun. injection Hrun as <- <-.
           exists [HttpGet u]. bound_events.
      * rewrite (api_call_success _ _ _ _ _ _ _ Hget Hsig) in Hrun.
        injection Hrun as <- <-.
        exists [HttpGet u]. bound_events.
Qed.

Variables start stop : Z.

Lemma after_call_tail (sym : string) (r1 : result (option payload)) (st1 : state)
    (r : result (option frame)) (st' : state) :
  after_call sym start stop (r1, st1) = (r, st') ->
  calls st' = calls st1 /\
  exists tail, log st' = log st1 ++ tail /\
               (tail = [] \/ exists n, tail = [LogCached n sym]).
Proof.
  unfold after_call. intros Hrun.
  assert (Hsame : forall x, (x, st1) = (r, st') ->
            calls st' = calls st1 /\
            exists tail, log st' = log st1 ++ tail /\
                         (tail = [] \/ exists n, tail = [LogCached n sym])).
  { intros x [= _ <-]. split; trivial. exists []. rewrite app_nil_r. auto. }
  destruct r1 as [[d|]|e]; eauto.
  destruct (api_signal d); eauto.
  destruct (normalize d) as [df|e]; eauto.
  destruct (known_columns df); eauto.
  injection Hrun as _ <-. cbn [calls log]. split; trivial.
  eexists. split; [reflexivity|]. right. eexists. reflexivity.
Qed.

(** One symbol's turn: at most three requests, all to the symbol's URL,
    and at most 180 seconds of waiting. *)
Lemma iteration_bound (sym : string) (st : state) :
  forall r st',
    try_except sym (body sym start stop) st = (r, st') ->
    exists evs,
      log st' = log st ++ evs /\
      calls st' = requests evs + calls st /\
      requests evs <= 3 /\
      seconds_slept evs <= 180 /\
      (forall e, In e evs -> is_http e = true -> e = HttpGet (url sym)).
Proof.
  intros r st' Hrun.
  assert (Hbody : forall r0 st0, body sym start stop st = (r0, st0) ->
            exists evs,
              log st0 = log st ++ evs /\ calls st0 = requests evs + calls st /\
              requests evs <= 3 /\ seconds_slept evs <= 180 /\
              (forall e, In e evs -> is_http e = true -> e = HttpGet (url sym))).
  { intros r0 st0 Hb.
    destruct (has_complete_range (read_sql (db st) sym (strftime start) (strftime stop))
                start stop) eqn:Hc.
    - rewrite (body_hit _ _ _ _ Hc) in Hb. injection Hb as <- <-.
      exists [Printed (FoundInCache sym)]. cbn [advance log calls].
      repeat split; try (unfold requests, seconds_slept; simpl; lia).
      intros e [<-|[]] Hhttp. discriminate Hhttp.
    - rewrite (body_miss _ _ _ _ Hc) in Hb.
      destruct (api_call (url sym) sym (seq 0 3) None
                  (advance 0 [Printed (FetchingNew sym)] st)) as [r1 st1] eqn:Hcall.
      apply api_call_bound in Hcall.
      destruct Hcall as (evs & -> & Hreq & Hsec & Hurl).
      apply after_call_tail in Hb.
      destruct Hb as [Hcalls (tail & Hlog & Htail)].
      exists (([Printed (FetchingNew sym)] ++ evs) ++ tail).
      cbn [List.length seq] in Hreq, Hsec.
      assert (Ht : requests tail = 0 /\ seconds_slept tail = 0 /\
                   forall e, In e tail -> is_http e = false).
      { destruct Htail as [-> | [n ->]]; repeat split; trivial.
        - intros e [].
        - intros e [<-|[]]. reflexivity. }
      destruct Ht as (Ht1 & Ht2 & Ht3).
      repeat split.
      + rewrite Hlog. cbn [advance log]. now rewrite <- !app_assoc.
      + rewrite Hcalls. cbn [advance calls]. rewrite !requests_app, Ht1.
        unfold requests at 2. simpl. lia.
      + rewrite !requests_app, Ht1. unfold requests at 1. simpl. lia.
      + rewrite !seconds_slept_app, Ht2. unfold seconds_slept at 1. simpl. lia.
      + intros e He Hhttp. apply in_app_or in He. destruct He as [He|He].
        * apply in_app_or in He. destruct He as [[<-|[]]|He]; [discriminate Hhttp|].
          apply Hurl; assumption.
        * rewrite (Ht3 e He) in Hhttp. discriminate Hhttp. }
  unfold try_except in Hrun.
  destruct (body sym start stop st) as [[r0|e] st0] eqn:Hb;
    destruct (Hbody _ _ eq_refl) as (evs & Hlog & Hcalls & Hreq & Hsec & Hurl).
  - injection Hrun as <- <-. exists evs. repeat split; assumption.
  - unfold handle_error, bind, emit, ret in Hrun. cbn [db calls log] in Hrun.
    injection Hrun as <- <-. cbn [log calls].
    exists (evs ++ [HandleError (ProcessingFailed sym e); LogException sym e]).
    repeat split.
    + rewrite Hlog, <- !app_assoc. reflexivity.
    + rewrite requests_app, Hcalls. unfold requests at 3. simpl. lia.
    + rewrite requests_app. unfold requests at 2. simpl. lia.
    + rewrite seconds_slept_app. unfold seconds_slept at 2. simpl. lia.
    + intros ev Hev Hhttp. apply in_app_or in Hev. destruct Hev as [Hev|Hev].
      * apply Hurl; assumption.
      * simpl in Hev.
        repeat (destruct Hev as [<-|Hev]; [discriminate Hhttp|]). contradiction.
Qed.

(** X6. Request bound of a batch, whatever the replies: a batch of n
    symbols makes at most 3n HTTP requests and waits at most 180n seconds,
    the counter of calls grows by exactly the requests in the log, and
    every request goes to the URL of a symbol of the batch. *)
Theorem batch_request_bound (symbols : list string) (st : state) :
  exists evs,
    log (snd (fetch_stock_data symbols start stop st)) = log st ++ evs /\
    calls (snd (fetch_stock_data symbols start stop st)) = requests evs + calls st /\
    requests evs <= 3 * List.length symbols /\
    seconds_slept evs <= 180 * List.length symbols /\
    (forall e, In e evs -> is_http e = true ->
               exists sym, In sym symbols /\ e = HttpGet (url sym)).
Proof.
  destruct (fetch_snd start stop symbols st) as (tail & -> & Htail).
  assert (Hloop : forall syms i n acc st0,
            exists evs,
              log (snd (for_symbols i n syms start stop acc st0)) = log st0 ++ evs /\
              calls (snd (for_symbols i n syms start stop acc st0))
              = requests evs + calls st0 /\
              requests evs <= 3 * List.length syms /\
              seconds_slept evs <= 180 * List.length syms /\
              (forall e, In e evs -> is_http e = true ->
                         exists sym, In sym syms /\ e = HttpGet (url sym))).
  { intros syms i n acc st0.
    apply (for_symbols_rel start stop
             (fun syms a b =>
                exists evs,
                  log b = log a ++ evs /\ calls b = requests evs + calls a /\
                  requests evs <= 3 * List.length syms /\
                  seconds_slept evs <= 180 * List.length syms /\
                  (forall e, In e evs -> is_http e = true ->
                             exists sym, In sym syms /\ e = HttpGet (url sym)))).
    - intros a. exists []. rewrite app_nil_r. repeat split; trivial. intros e [].
    - intros i' n' sym later a b c r Hrun (evs2 & Hlog2 & Hcalls2 & Hreq2 & Hsec2 & Hurl2).
      apply iteration_bound in Hrun.
      destruct Hrun as (evs1 & Hlog1 & Hcalls1 & Hreq1 & Hsec1 & Hurl1).
      cbn [advance log calls] in Hlog1, Hcalls1.
      exists (([Printed (Processing (S i') n' sym)] ++ evs1) ++ evs2).
      cbn [List.length]. repeat split.
      + rewrite Hlog2, Hlog1. now rewrite <- !app_assoc.
      + rewrite Hcalls2, Hcalls1, !requests_app. unfold requests at 3. simpl. lia.
      + rewrite !requests_app. unfold requests at 1. simpl. lia.
      + rewrite !seconds_slept_app. unfold seconds_slept at 1. simpl. lia.
      + intros e He Hhttp. apply in_app_or in He. destruct He as [He|He].
        * apply in_app_or in He. destruct He as [[<-|[]]|He]; [discriminate Hhttp|].
          exists sym. split; [left; reflexivity|apply Hurl1; assumption].
        * destruct (Hurl2 e He Hhttp) as (s & Hs & ->).
          exists s. split; [right; exact Hs|reflexivity]. }
  destruct (Hloop symbols 0 (List.length symbols) [] (advance 0 [Printed Initiating] st))
    as (evs & Hlog & Hcalls & Hreq & Hsec & Hurl).
  cbn [advance log calls] in *.
  exists (([Printed Initiating] ++ evs) ++ tail).
  assert (Ht : requests tail = 0 /\ seconds_slept tail = 0 /\
               forall e, In e tail -> is_http e = false).
  { destruct Htail as [-> | [-> | ->]]; repeat split; trivial;
      try (intros e [<-|[]]; reflexivity). intros e []. }
  destruct Ht as (Ht1 & Ht2 & Ht3).
  repeat split.
  - rewrite Hlog. now rewrite <- !app_assoc.
  - rewrite Hcalls, !requests_app, Ht1. unfold requests at 2. simpl. lia.
  - rewrite !requests_app, Ht1. unfold requests at 1. simpl. lia.
  - rewrite !seconds_slept_app, Ht2. unfold seconds_slept at 1. simpl. lia.
  - intros e He Hhttp. apply in_app_or in He. destruct He as [He|He].
    + apply in_app_or in He. destruct He as [[<-|[]]|He]; [discriminate Hhttp|].
      apply Hurl; assumption.
    + rewrite (Ht3 e He) in Hhttp. discriminate Hhttp.
Qed.

End Bounds.

(** ** Replies that end, or do not end, the retry loop *)

Section Replies.

Context `{Externals}.

(** After [k] rate-limited replies in a row, a reply without a signal ends
    the loop with its body, provided an attempt is left for it. *)
Lemma api_call_recovers (u sym : string) (msg : nat -> string) (good : payload)
    (k : nat) :
  forall (attempts : list nat) (data : option payload) (st : state),
    k < List.length attempts ->
    (forall i, i < k ->
       exists d, requests_get u (i + calls st) = Object d /\
                 api_signal d = true /\
                 api_message d = JStr (msg (i + calls st)) /\
                 premium (msg (i + calls st)) = true) ->
    requests_get u (k + calls st) = Object good ->
    api_signal good = false ->
    api_call u sym attempts data st =
    (Ok (Some good),
     advance (S k) (retry_events u sym msg (calls st) k ++ [HttpGet u]) st).
Proof.
  induction k as [|k IH]; intros attempts data st Hlen Hlimited Hgood Hclean.
  - destruct attempts as [|a later]; [simpl in Hlen; lia|].
    apply api_call_success; assumption.
  - destruct attempts as [|a later]; [simpl in Hlen; lia|].
    destruct (Hlimited 0) as (d & Hget & Hsig & Hmsg & Hprem); [lia|].
    cbn [Nat.add] in Hget, Hmsg, Hprem.
    rewrite (api_call_retry _ _ _ _ _ _ _ _ Hget Hsig Hmsg Hprem).
    rewrite (IH later (Some d)
               (advance 1 [HttpGet u; HandleError (RateLimited sym (msg (calls st)));
                           Slept 60] st)).
    + rewrite advance_advance, retry_events_S.
      cbn [advance calls Nat.add]. rewrite <- app_assoc. reflexivity.
    + simpl in Hlen. lia.
    + intros i Hi. cbn [advance calls].
      destruct (Hlimited (S i)) as (di & Hg & Hs & Hm & Hp); [lia|].
      replace (i + (1 + calls st)) with (S i + calls st) by lia. eauto.
    + cbn [advance calls].
      replace (k + (1 + calls st)) with (S k + calls st) by lia. exact Hgood.
    + exact Hclean.
Qed.

Variables start stop : Z.

(** X7. Recovery from the rate limit: when the cache is incomplete and the
    first [k] replies ([k] at most 2) are signals with "premium" in their
    text while the next reply has no signal, the symbol goes on with that
    reply exactly as if it had come first, after [k] more requests and [k]
    waits of 60 seconds. *)
Theorem rate_limit_then_data (sym : string) (st : state) (msg : nat -> string)
    (good : payload) (k : nat) :
  has_complete_range (read_sql (db st) sym (strftime start) (strftime stop))
                     start stop = false ->
  k <= 2 ->
  (forall i, i < k ->
     exists d, requests_get (url sym) (i + calls st) = Object d /\
               api_signal d = true /\
               api_message d = JStr (msg (i + calls st)) /\
               premium (msg (i + calls st)) = true) ->
  requests_get (url sym) (k + calls st) = Object good ->
  api_signal good = false ->
  body sym start stop st =
  after_call sym start stop
    (Ok (Some good),
     advance (S k)
       (Printed (FetchingNew sym)
        :: retry_events (url sym) sym msg (calls st) k ++ [HttpGet (url sym)]) st) /\
  seconds_slept (retry_events (url sym) sym msg (calls st) k) = 60 * k.
Proof.
  intros Hmiss Hk Hlimited Hgood Hclean. split.
  - rewrite (body_miss _ _ _ _ Hmiss).
    rewrite (api_call_recovers (url sym) sym msg good k); trivial.
    + rewrite advance_advance. reflexivity.
    + simpl. lia.
  - clear. generalize (calls st) as c. induction k as [|k IH]; intros c; trivial.
    rewrite retry_events_S, seconds_slept_app, IH.
    unfold seconds_slept. simpl. lia.
Qed.

(** X8. A failed request is not retried: when the cache is incomplete and
    the first request raises, or its body is no dict, or carries a signal
    whose message is no text, the symbol ends there, after that one
    request and without a wait, with the exception notified in its name
    and the table as it was. *)
Theorem failed_request_not_retried (sym : string) (st : state) :
  has_complete_range (read_sql (db st) sym (strftime start) (strftime stop))
                     start stop = false ->
  (requests_get (url sym) (calls st) = NoReply \/
   requests_get (url sym) (calls st) = NotObject \/
   exists d, requests_get (url sym) (calls st) = Object d /\
             api_signal d = true /\
             forall msg, api_message d <> JStr msg) ->
  exists e,
    try_except sym (body sym start stop) st =
    (Ok None,
     advance 1 [ Printed (FetchingNew sym); HttpGet (url sym);
                 HandleError (ProcessingFailed sym e); LogException sym e ] st).
Proof.
  intros Hmiss Hreply.
  assert (Hcall : exists e,
            api_call (url sym) sym (seq 0 3) None
              (advance 0 [Printed (FetchingNew sym)] st) =
            (Raise e, advance 1 [Printed (FetchingNew sym); HttpGet (url sym)] st)).
  { cbn [seq api_call]. unfold bind at 1. unfold requests_json.
    cbn [advance calls Nat.add].
    destruct Hreply as [Hr|[Hr|(d & Hr & Hsig & Hmsg)]]; rewrite Hr.
    - exists RequestError. f_equal. same_state.
    - exists TypeError. f_equal. same_state.
    - exists AttributeError. rewrite Hsig.
      destruct (api_message d) as [msg| |].
      + now elim (Hmsg msg).
      + unfold raise. f_equal. same_state.
      + unfold raise. f_equal. same_state. }
  destruct Hcall as [e Hcall]. exists e.
  unfold try_except. rewrite (body_miss _ _ _ _ Hmiss), Hcall.
  unfold after_call, handle_error, bind, emit, ret. cbn [db calls log].
  f_equal. same_state.
Qed.

(** X9. An inverted range counts as complete: when the end lies before the
    start there is no day to look for, so a batch makes no request and
    leaves the table as it was, whatever its symbols and whatever the
    table holds; a symbol that the SELECT carries as it is is answered by
    the cache read. *)
Theorem inverted_range_is_cache_hit (sym : string) (symbols : list string)
    (st : state) :
  (stop < start)%Z ->
  (sql_safe sym = true ->
   body sym start stop st =
   (Ok (Some (Cached (read_sql (db st) sym (strftime start) (strftime stop)))),
    advance 0 [Printed (FoundInCache sym)] st)) /\
  calls (snd (fetch_stock_data symbols start stop st)) = calls st /\
  db (snd (fetch_stock_data symbols start stop st)) = db st.
Proof.
  intros Hinv.
  assert (Hhit : forall s t, has_complete_range (read_sql t s (strftime start)
                                                   (strftime stop)) start stop = true).
  { intros s t. unfold has_complete_range, date_range.
    replace (Z.to_nat (stop - start + 1)) with 0 by lia. reflexivity. }
  split; [intros _; apply body_hit, Hhit|].
  assert (Hloop : forall syms i n acc st0,
            calls (snd (for_symbols i n syms start stop acc st0)) = calls st0 /\
            db (snd (for_symbols i n syms start stop acc st0)) = db st0).
  { intros syms i n acc st0.
    apply (for_symbols_rel start stop
             (fun _ a b => calls b = calls a /\ db b = db a)).
    - intros a. split; reflexivity.
    - intros i' n' s later a b c r Hrun [Hc Hd].
      rewrite iteration_hit in Hrun by apply Hhit.
      injection Hrun as _ <-. rewrite Hc, Hd. split; reflexivity. }
  destruct (fetch_snd start stop symbols st) as (tail & -> & _).
  cbn [advance calls db Nat.add].
  apply (Hloop symbols 0 (List.length symbols) [] (advance 0 [Printed Initiating] st)).
Qed.

End Replies.

(** ** [all_data] as a dict *)

Section AllData.

Context `{Externals}.

Lemma dict_set_keys {V : Type} (k : string) (v : V) (d : list (string * V)) :
  map fst (dict_set k v d) =
  if has_key k d then map fst d else map fst d ++ [k].
Proof.
  unfold has_key.
  induction d as [|[k' v'] d IH]; simpl; trivial.
  destruct (String.eqb_spec k k') as [->|Hne]; simpl; trivial.
  rewrite IH. destruct (existsb _ d); reflexivity.
Qed.

Lemma has_key_In {V : Type} (k : string) (d : list (string * V)) :
  has_key k d = true <-> In k (map fst d).
Proof.
  unfold has_key. rewrite existsb_exists, in_map_iff. split.
  - intros (kv & Hin & Heq). apply String.eqb_eq in Heq. exists kv. auto.
  - intros (kv & Heq & Hin). exists kv. split; trivial. apply String.eqb_eq. auto.
Qed.

Lemma dict_set_NoDup {V : Type} (k : string) (v : V) (d : list (string * V)) :
  NoDup (map fst d) -> NoDup (map fst (dict_set k v d)).
Proof.
  intros Hd. rewrite dict_set_keys.
  destruct (has_key k d) eqn:Hk; trivial.
  apply NoDup_app; trivial.
  - repeat constructor. intros [].
  - intros x Hx [<-|[]]. apply has_key_In in Hx. congruence.
Qed.

Lemma store_snoc (outs : list (string * option frame)) (o : string * option frame)
    (acc : list (string * frame)) :
  fold_left store (outs ++ [o]) acc = store (fold_left store outs acc) o.
Proof. now rewrite fold_left_app. Qed.

(** X11. [all_data] holds one entry per symbol that contributed a frame,
    never two for one symbol, and the entry is the frame of the symbol's
    last contributing turn: a symbol asked for twice is answered by its
    later result. *)
Theorem all_data_last_frame_wins (outs : list (string * option frame)) :
  NoDup (map fst (collect outs)) /\
  List.length (collect outs) <= List.length outs /\
  forall sym, dict_get sym (collect outs) = last_success sym outs.
Proof.
  unfold collect.
  induction outs as [|[s r] outs IH] using rev_ind.
  - repeat split; [constructor|reflexivity].
  - destruct IH as (Hnd & Hlen & Hget).
    rewrite store_snoc, length_app.
    set (acc := fold_left store outs []) in *.
    unfold store. cbn [fst snd List.length].
    destruct r as [f|].
    + repeat split.
      * apply dict_set_NoDup, Hnd.
      * rewrite <- (length_map fst), dict_set_keys.
        destruct (has_key s _); rewrite ?length_app, length_map; simpl; lia.
      * intros sym. rewrite dict_get_dict_set.
        unfold last_success. rewrite rev_app_distr. cbn [rev app find].
        unfold is_success_of at 1. cbn [fst snd].
        destruct (String.eqb sym s); cbn [andb]; trivial.
    + repeat split; trivial; [lia|].
      intros sym. rewrite Hget.
      unfold last_success. rewrite rev_app_distr. cbn [rev app find].
      unfold is_success_of at 2. cbn [fst snd]. rewrite andb_false_r. reflexivity.
Qed.

End AllData.

(** ** The handlers *)

Section HandlerProps.

Context `{Externals}.

Lemma existsb_eqb_In (x : string) (l : list string) :
  existsb (String.eqb x) l = true <-> In x l.
Proof.
  rewrite existsb_exists. split.
  - intros (y & Hy & Heq). apply String.eqb_eq in Heq. now subst.
  - intros Hin. exists x. split; trivial. apply String.eqb_refl.
Qed.

(** X12. Adding a custom symbol, whatever [str.strip] and [str.upper] make
    of a text, as long as they make the empty text of the empty text: the
    options only grow, by at most the stripped, upper-cased text of the
    input; nothing is added when that text is empty or already among the
    options, so options free of repetitions and of the empty symbol stay
    so; and a second click right after the first changes nothing. *)
Theorem add_symbol_at_most_once (str_strip str_upper : string -> string)
    (opts : list string) (input : string)
    (opts' : list string) (input' : string) (evs : list shown) :
  str_upper (str_strip "") = "" ->
  on_add_symbol_clicked str_strip str_upper opts input = (opts', input', evs) ->
  let custom := str_upper (str_strip input) in
  (opts' = opts \/ opts' = opts ++ [custom]) /\
  (opts' = opts ++ [custom] <-> custom <> "" /\ ~ In custom opts) /\
  (NoDup opts -> NoDup opts') /\
  (~ In "" opts -> ~ In "" opts') /\
  (forall s, In s opts -> In s opts') /\
  on_add_symbol_clicked str_strip str_upper opts' input' = (opts', input', []).
Proof.
  intros Hblank Hrun custom. unfold on_add_symbol_clicked in Hrun. fold custom in Hrun.
  assert (Hself : opts <> opts ++ [custom]).
  { intros Heq. apply (f_equal (@List.length string)) in Heq.
    rewrite length_app in Heq. simpl in Heq. lia. }
  destruct (String.eqb_spec custom "") as [Hempty|Hfull]; cbn [negb andb] in Hrun.
  - injection Hrun as <- <- <-.
    split; [left; reflexivity|]. split; [|split; [|split; [|split]]]; auto.
    + split; [intros Heq; contradiction|intros [Hne _]; contradiction].
    + unfold on_add_symbol_clicked. fold custom. rewrite Hempty. reflexivity.
  - destruct (existsb (String.eqb custom) opts) eqn:Hex; cbn [negb] in Hrun;
      injection Hrun as <- <- <-.
    + split; [left; reflexivity|]. split; [|split; [|split; [|split]]]; auto.
      * apply existsb_eqb_In in Hex.
        split; [intros Heq; contradiction|intros [_ Hout]; contradiction].
      * unfold on_add_symbol_clicked. fold custom.
        rewrite Hex, andb_false_r. reflexivity.
    + assert (Hout : ~ In custom opts).
      { intros Hin. apply existsb_eqb_In in Hin. congruence. }
      split; [right; reflexivity|]. split; [|split; [|split; [|split]]].
      * split; [intros _; split; assumption|reflexivity].
      * intros Hnd. apply NoDup_app; trivial.
        -- repeat constructor. intros [].
        -- intros x Hx [<-|[]]. contradiction.
      * intros Hnone Hin. apply in_app_or in Hin.
        destruct Hin as [Hin|[Heq|[]]]; [contradiction|]. congruence.
      * intros s Hs. apply in_or_app. left. exact Hs.
      * unfold on_add_symbol_clicked. rewrite Hblank. reflexivity.
Qed.

(** How a batch ends: it raises where [pd.concat] refuses the frames, and
    otherwise returns, with [None] when no symbol contributed a frame. *)
Lemma fetch_result (symbols : list string) (start stop : Z) (st : state) :
  let outs := outcomes 0 (List.length symbols) symbols start stop
                (advance 0 [Printed Initiating] st) in
  exists evs,
    log (snd (fetch_stock_data symbols start stop st)) = log st ++ evs /\
    processed evs = symbols /\
    (fst (fetch_stock_data symbols start stop st) = Raise InvalidIndexError /\
     concat_fails (map snd (collect outs)) = true \/
     exists df,
       fst (fetch_stock_data symbols start stop st) = Ok df /\
       ((forall o, In o outs -> snd o = None) -> df = None)) /\
    ((forall o, In o outs -> snd o = None) ->
     fst (fetch_stock_data symbols start stop st) = Ok None).
Proof.
  intros outs.
  destruct (fetch_inv start stop symbols st)
    as (st' & evs & Hrun & Hlog & _ & Hproc & _ & _).
  fold outs in Hrun. rewrite Hrun. cbn [fst snd].
  exists evs. split; [exact Hlog|]. split; [exact Hproc|].
  assert (Hnone : (forall o, In o outs -> snd o = None) -> collect outs = []).
  { intros Hall. apply store_nil_iff. split; trivial. }
  split.
  - destruct (collect outs) as [|p rest] eqn:Hcol.
    + right. eexists. split; [reflexivity|]. reflexivity.
    + destruct (concat_fails (map snd (p :: rest))).
      * left. split; reflexivity.
      * right. eexists. split; [reflexivity|].
        intros Hall. apply Hnone in Hall. discriminate.
  - intros Hall. rewrite (Hnone Hall). reflexivity.
Qed.

(** A batch of one symbol returns: [pd.concat] is given one frame. *)
Lemma fetch_returns_one (sym : string) (start stop : Z) (st : state) :
  exists df,
    fetch_stock_data [sym] start stop st =
    (Ok df, snd (fetch_stock_data [sym] start stop st)).
Proof.
  destruct (fetch_inv start stop [sym] st)
    as (st' & evs & Hrun & _ & _ & _ & Hfst & _).
  rewrite Hrun. cbn [snd].
  set (outs := outcomes 0 (List.length [sym]) [sym] start stop
                 (advance 0 [Printed Initiating] st)) in *.
  assert (Hlen : List.length (collect outs) <= 1).
  { pose proof (store_length outs []) as Hle.
    apply (f_equal (@List.length string)) in Hfst.
    rewrite length_map in Hfst. cbn [List.length Nat.add] in Hfst, Hle. unfold collect. lia. }
  destruct (collect outs) as [|p rest] eqn:Hcol; [eauto|].
  destruct (concat_fails (map snd (p :: rest))) eqn:Hfail; [|eauto].
  apply concat_fails_two in Hfail. rewrite length_map in Hfail. lia.
Qed.

(** X13. Refresh with both dates set leaves the controls as they are.
    With no symbol selected, or with a start date that is not before the
    end date, it shows one error and does not run the fetcher: no request,
    no change to the table.  Otherwise it runs the fetcher once, on
    exactly the selected symbols in their order; it ends normally when the
    fetcher returns, showing "no data" when no symbol contributed a frame,
    and lets the fetcher's exception through when [pd.concat] refuses the
    frames, with nothing shown but the cleared error display. *)
Theorem refresh_validates_before_fetching (u : dashboard) (start stop : Z) :
  start_date (widgets u) = Some start ->
  end_date (widgets u) = Some stop ->
  exists h u',
    on_refresh_clicked u = (h, u') /\
    widgets u' = widgets u /\
    ((selected (widgets u) = [] \/ (stop <= start)%Z) ->
     h = Done /\ core u' = core u /\
     exists message,
       screen u' = screen u ++ [ClearOutput ErrorOutput; ErrorShown message]) /\
    (selected (widgets u) <> [] -> (start < stop)%Z ->
     let run := fetch_stock_data (selected (widgets u)) start stop (core u) in
     core u' = snd run /\
     (exists evs, log (core u') = log (core u) ++ evs /\
                  processed evs = selected (widgets u)) /\
     ((exists df, fst run = Ok df) -> h = Done) /\
     (forall e, fst run = Raise e ->
                h = Raised (FromCore e) /\
                screen u' = screen u ++ [ClearOutput ErrorOutput]) /\
     ((forall o, In o (outcomes 0 (List.length (selected (widgets u)))
                         (selected (widgets u)) start stop
                         (advance 0 [Printed Initiating] (core u))) ->
                 snd o = None) ->
      h = Done /\
      screen u' = screen u ++ [ClearOutput ErrorOutput; NoDataToDisplay])).
Proof.
  intros Hs He. unfold on_refresh_clicked. rewrite Hs, He.
  destruct (selected (widgets u)) as [|sym later] eqn:Hsel.
  - eexists _, _. split; [reflexivity|]. split; [reflexivity|]. split.
    + intros _. split; [reflexivity|]. split; [reflexivity|]. eexists.
      cbn [show screen]. rewrite <- app_assoc. reflexivity.
    + intros Hne. now elim Hne.
  - destruct (stop <=? start)%Z eqn:Hle.
    + apply Z.leb_le in Hle.
      eexists _, _. split; [reflexivity|]. split; [reflexivity|]. split.
      * intros _. split; [reflexivity|]. split; [reflexivity|]. eexists.
        cbn [show screen]. rewrite <- app_assoc. reflexivity.
      * intros _ Hlt. lia.
    + apply Z.leb_gt in Hle.
      destruct (fetch_result (sym :: later) start stop (core u))
        as (evs & Hlog & Hproc & _ & Hnone).
      destruct (fetch_stock_data (sym :: later) start stop (core u))
        as [[df|e] st'] eqn:Hrun; cbn [fst snd] in *.
      * assert (Hshape : exists tail,
                  (match df with
                   | Some frames =>
                       if (total_rows frames =? 0)%nat
                       then (Done, show [NoDataToDisplay]
                                     (with_core st' (show [ClearOutput ErrorOutput] u)))
                       else
                         (Done,
                          show [ GeneratingPlot frames (chart_type (widgets u))
                                   (metrics (widgets u)) (indicators (widgets u))
                                   (if dark_mode (widgets u)
                                    then "plotly_dark" else "plotly_white");
                                 CalculatingSummary frames ]
                            (with_core st' (show [ClearOutput ErrorOutput] u)))
                   | None =>
                       (Done, show [NoDataToDisplay]
                                (with_core st' (show [ClearOutput ErrorOutput] u)))
                   end) =
                  (Done, show tail (with_core st' (show [ClearOutput ErrorOutput] u))) /\
                  (df = None -> tail = [NoDataToDisplay])).
        { destruct df as [frames|].
          - destruct (total_rows frames =? 0)%nat; eexists; split;
              try reflexivity; discriminate.
          - eexists. split; [reflexivity|]. reflexivity. }
        destruct Hshape as (tail & -> & Htail).
        eexists _, _. split; [reflexivity|]. split; [reflexivity|]. split.
        -- intros [Hnil|Hbad]; [discriminate|lia].
        -- intros _ _. cbn [show with_core core screen]. split; [reflexivity|].
           split; [exists evs; split; assumption|].
           split; [reflexivity|]. split; [discriminate|].
           intros Hall. split; [reflexivity|].
           specialize (Hnone Hall). injection Hnone as ->.
           rewrite (Htail eq_refl), <- app_assoc. reflexivity.
      * eexists _, _. split; [reflexivity|]. split; [reflexivity|]. split.
        -- intros [Hnil|Hbad]; [discriminate|lia].
        -- intros _ _. cbn [show with_core core screen]. split; [reflexivity|].
           split; [exists evs; split; assumption|].
           split; [intros [df Hdf]; discriminate|].
           split; [intros e' [= <-]; split; reflexivity|].
           intros Hall. specialize (Hnone Hall). discriminate.
Qed.

(** Refresh with a date picker left empty raises a [TypeError] at the
    comparison of the dates, after the error display is cleared and
    before anything is fetched, whenever a symbol is selected. *)
Theorem refresh_without_date_raises (u : dashboard) :
  selected (widgets u) <> [] ->
  start_date (widgets u) = None \/ end_date (widgets u) = None ->
  on_refresh_clicked u = (Raised (FromCore TypeError), show [ClearOutput ErrorOutput] u).
Proof.
  intros Hsel Hnone. unfold on_refresh_clicked.
  destruct (selected (widgets u)); [now elim Hsel|].
  destruct Hnone as [-> | ->]; [reflexivity|].
  destruct (start_date (widgets u)); reflexivity.
Qed.

(** X14. Reset with AAPL among the options and a clock that does not run
    backwards always reaches the fetcher: the controls get their default
    values, the selection AAPL and the last 90 days pass the validation of
    the refresh, the fetcher runs once on AAPL for that range, and no
    validation error is shown.  Without AAPL among the options the first
    assignment raises and nothing changes. *)
Theorem reset_always_fetches (today today' : Z) (u : dashboard) :
  (today <= today')%Z ->
  (In "AAPL" (options (widgets u)) ->
   exists u' tail,
     on_reset_clicked today today' u = (Done, u') /\
     widgets u' = reset_controls (widgets u) today today' /\
     core u' = snd (fetch_stock_data ["AAPL"] (today - 90) today' (core u)) /\
     screen u' = screen u ++ [ ClearOutput MainOutput; ClearOutput SummaryOutput;
                               ClearOutput ErrorOutput;
                               InfoLogged "Controls reset to default.";
                               ClearOutput ErrorOutput ] ++ tail /\
     (tail = [NoDataToDisplay] \/
      exists frames,
        tail = [ GeneratingPlot frames "Line" ["Close"] [] "plotly_dark";
                 CalculatingSummary frames ])) /\
  (~ In "AAPL" (options (widgets u)) ->
   on_reset_clicked today today' u = (Raised TraitError, u)).
Proof.
  intros Hclock. split.
  - intros Hin. unfold on_reset_clicked.
    rewrite (proj2 (existsb_eqb_In _ _) Hin).
    unfold on_refresh_clicked. cbn [widgets reset_controls selected start_date end_date
                                    chart_type metrics indicators dark_mode core].
    replace (today' <=? today - 90)%Z with false by (symmetry; apply Z.leb_gt; lia).
    destruct (fetch_returns_one "AAPL" (today - 90) today' (core u))
      as (df & Hrun).
    rewrite Hrun.
    destruct df as [frames|].
    + destruct (total_rows frames =? 0)%nat.
      * eexists _, [NoDataToDisplay]. split; [reflexivity|].
        cbn [show with_core widgets core screen].
        repeat split; [rewrite <- !app_assoc; reflexivity|left; reflexivity].
      * eexists _, _. split; [reflexivity|].
        cbn [show with_core widgets core screen].
        repeat split; [rewrite <- !app_assoc; reflexivity|right; eexists; reflexivity].
    + eexists _, [NoDataToDisplay]. split; [reflexivity|].
      cbn [show with_core widgets core screen].
      repeat split; [rewrite <- !app_assoc; reflexivity|left; reflexivity].
  - intros Hout. unfold on_reset_clicked.
    destruct (existsb (String.eqb "AAPL") (options (widgets u))) eqn:Hex; trivial.
    apply existsb_eqb_In in Hex. contradiction.
Qed.

End HandlerProps.

(** ** The further properties at work in the concrete environments *)

Section MoreDemoRuns.

#[local] Existing Instance Demo.env.

Example demo_strip_upper : PyText.upper (PyText.strip "  nvda	") = "NVDA".
Proof. reflexivity. Qed.

Example demo_refresh_partial :
  match on_refresh_clicked
          (DemoUi.fresh Demo.empty_state ["AAPL"; "NOPE123"]
             (Some Demo.jan1) (Some Demo.jan3)) with
  | (Done, u) =>
      calls (core u) = 2 /\
      match screen u with
      | [ClearOutput ErrorOutput; GeneratingPlot frames _ _ _ theme; CalculatingSummary _] =>
          total_rows frames = 3 /\ theme = "plotly_dark"
      | _ => False
      end
  | _ => False
  end.
Proof. vm_compute. repeat split. Qed.




(** The rows of the first call read back for the range of the call: the
    row of the last day is stored and is not among them. *)
Lemma read_sql_drops_end_day_witness :
  let t := db (snd (fetch_stock_data ["BTC-USD"] Demo.jan1 Demo.jan3 Demo.empty_state)) in
  sql_safe "BTC-USD" = true /\
  map date t = ["2024-01-01 00:00:00"; "2024-01-02 00:00:00"; "2024-01-03 00:00:00"] /\
  map date (read_sql t "BTC-USD" (strftime Demo.jan1) (strftime Demo.jan3)) =
  ["2024-01-01 00:00:00"; "2024-01-02 00:00:00"] /\
  forall r, In r t -> date r = "2024-01-03 00:00:00" ->
            ~ In r (read_sql t "BTC-USD" (strftime Demo.jan1) (strftime Demo.jan3)).
Proof.
  intros t.
  destruct (read_sql_drops_end_day t "BTC-USD" (strftime Demo.jan1) (strftime Demo.jan3)
              eq_refl) as (_ & Hdrop & _).
  split; [reflexivity|]. split; [reflexivity|]. split; [reflexivity|].
  intros r _ Hdate. apply (Hdrop r " 00:00:00").
  - discriminate.
  - exact Hdate.
Defined.


Lemma rate_limit_then_data_witness :
  calls (snd (@body Flaky.env "AAPL" Demo.jan1 Demo.jan3 Flaky.empty_state)) = 3 /\
  seconds_slept (log (snd (@body Flaky.env "AAPL" Demo.jan1 Demo.jan3 Flaky.empty_state)))
  = 120.
Proof.
  destruct (@rate_limit_then_data Flaky.env Demo.jan1 Demo.jan3 "AAPL" Flaky.empty_state
              (fun _ => "Thank you for using Alpha Vantage! Please visit the Premium page to raise your call frequency.")
              Demo.good_body 2) as [Hrun _].
  - reflexivity.
  - lia.
  - intros i Hi. exists Demo.premium_note.
    destruct i as [|[|i]]; [| |lia]; repeat split; reflexivity.
  - reflexivity.
  - reflexivity.
  - rewrite Hrun. split; reflexivity.
Defined.

Lemma failed_request_not_retried_witness :
  requests_get (url "DOWN") (calls Demo.warm_state) = NoReply /\
  exists e,
    try_except "DOWN" (body "DOWN" Demo.jan1 Demo.jan3) Demo.warm_state =
    (Ok None,
     advance 1 [ Printed (FetchingNew "DOWN"); HttpGet (url "DOWN");
                 HandleError (ProcessingFailed "DOWN" e);
                 LogException "DOWN" e ] Demo.warm_state).
Proof.
  split; [reflexivity|].
  apply (failed_request_not_retried Demo.jan1 Demo.jan3 "DOWN" Demo.warm_state).
  - reflexivity.
  - left. reflexivity.
Defined.

Lemma inverted_range_is_cache_hit_witness :
  (Demo.jan1 < Demo.jan3)%Z /\
  calls (snd (fetch_stock_data ["IBM"; "DOWN"] Demo.jan3 Demo.jan1 Demo.empty_state)) = 0.
Proof.
  split; [reflexivity|].
  destruct (inverted_range_is_cache_hit Demo.jan3 Demo.jan1 "IBM" ["IBM"; "DOWN"]
              Demo.empty_state) as (_ & Hcalls & _).
  - reflexivity.
  - exact Hcalls.
Defined.

Lemma add_symbol_at_most_once_witness :
  PyText.upper (PyText.strip "") = "" /\
  on_add_symbol_clicked PyText.strip PyText.upper DemoUi.defaults " nvda " =
  (DemoUi.defaults ++ ["NVDA"], "", [InfoLogged "Added custom symbol: NVDA"]) /\
  on_add_symbol_clicked PyText.strip PyText.upper (DemoUi.defaults ++ ["NVDA"]) "" =
  (DemoUi.defaults ++ ["NVDA"], "", []).
Proof.
  split; [reflexivity|]. split; [reflexivity|].
  destruct (add_symbol_at_most_once PyText.strip PyText.upper DemoUi.defaults " nvda "
              (DemoUi.defaults ++ ["NVDA"]) ""
              [InfoLogged "Added custom symbol: NVDA"] eq_refl eq_refl)
    as (_ & _ & _ & _ & _ & Hagain).
  exact Hagain.
Defined.

Lemma refresh_validates_before_fetching_witness :
  (exists u',
     on_refresh_clicked
       (DemoUi.fresh Demo.warm_state ["AAPL"] (Some Demo.jan3) (Some Demo.jan1))
     = (Done, u') /\
     core u' = Demo.warm_state) /\
  (exists u',
     on_refresh_clicked
       (DemoUi.fresh Demo.empty_state ["NOPE123"; "DOWN"] (Some Demo.jan1) (Some Demo.jan3))
     = (Done, u') /\
     calls (core u') = 2 /\
     screen u' = [ClearOutput ErrorOutput; NoDataToDisplay]).
Proof.
  split.
  - destruct (refresh_validates_before_fetching
                (DemoUi.fresh Demo.warm_state ["AAPL"] (Some Demo.jan3) (Some Demo.jan1))
                Demo.jan3 Demo.jan1 eq_refl eq_refl)
      as (h & u' & Hrun & _ & Hinvalid & _).
    destruct Hinvalid as (Hdone & Hcore & _).
    { right. unfold Demo.jan1, Demo.jan3. lia. }
    exists u'. rewrite Hrun, Hdone. split; [reflexivity|exact Hcore].
  - destruct (refresh_validates_before_fetching
                (DemoUi.fresh Demo.empty_state ["NOPE123"; "DOWN"]
                   (Some Demo.jan1) (Some Demo.jan3))
                Demo.jan1 Demo.jan3 eq_refl eq_refl)
      as (h & u' & Hrun & _ & _ & Hvalid).
    destruct Hvalid as (Hcore & _ & _ & _ & Hnone).
    { discriminate. }
    { unfold Demo.jan1, Demo.jan3. lia. }
    destruct Hnone as [Hdone Hscreen].
    { intros o Ho.
      change (In o [("NOPE123", None); ("DOWN", None)]) in Ho.
      destruct Ho as [<-|[<-|[]]]; reflexivity. }
    exists u'. rewrite Hrun, Hdone. split; [reflexivity|].
    split; [rewrite Hcore; reflexivity|exact Hscreen].
Defined.

Lemma refresh_without_date_raises_witness :
  on_refresh_clicked (DemoUi.fresh Demo.warm_state ["AAPL"] None (Some Demo.jan1)) =
  (Raised (FromCore TypeError),
   show [ClearOutput ErrorOutput]
     (DemoUi.fresh Demo.warm_state ["AAPL"] None (Some Demo.jan1))).
Proof.
  apply refresh_without_date_raises.
  - discriminate.
  - left. reflexivity.
Defined.

Lemma reset_always_fetches_witness :
  exists u',
    on_reset_clicked Demo.jan3 Demo.jan3
      (DemoUi.fresh Demo.empty_state [] None None) = (Done, u') /\
    selected (widgets u') = ["AAPL"] /\
    start_date (widgets u') = Some (Demo.jan3 - 90)%Z.
Proof.
  destruct (reset_always_fetches Demo.jan3 Demo.jan3
              (DemoUi.fresh Demo.empty_state [] None None)) as [Hreset _].
  - lia.
  - destruct Hreset as (u' & tail & Hrun & Hw & _).
    + left. reflexivity.
    + exists u'. split; [exact Hrun|]. rewrite Hw. split; reflexivity.
Defined.

End MoreDemoRuns.

(** ** Two frames that do not stack *)

Section DoubledRuns.

#[local] Existing Instance Doubled.env.

(** Both symbols contribute a frame and their rows are stored; the frame of
    the second has two columns named open, and the call raises. *)
Example demo_doubled_columns :
  map (fun o => match snd o with
                | Some f => (fst o, columns_of f)
                | None => (fst o, [])
                end)
      (outcomes 0 2 ["AAPL"; "XYZ"] Demo.jan1 Demo.jan3
         (advance 0 [Printed Initiating] Doubled.empty_state)) =
  [ ("AAPL", ["open"; "close"; "volume"; "symbol"]);
    ("XYZ", ["open"; "open"; "symbol"]) ] /\
  List.length (db (snd (fetch_stock_data ["AAPL"; "XYZ"] Demo.jan1 Demo.jan3
                          Doubled.empty_state))) = 4.
Proof. split; reflexivity. Qed.

Lemma no_data_iff_no_success_witness :
  (forall o, In o (outcomes 0 2 ["AAPL"; "XYZ"] Demo.jan1 Demo.jan3
                     (advance 0 [Printed Initiating] Doubled.empty_state)) ->
             snd o <> None) /\
  fst (fetch_stock_data ["AAPL"; "XYZ"] Demo.jan1 Demo.jan3 Doubled.empty_state) =
  Raise InvalidIndexError /\
  exists frames,
    fst (fetch_stock_data ["XYZ"] Demo.jan1 Demo.jan3 Doubled.empty_state) =
    Ok (Some frames).
Proof.
  destruct (no_data_iff_no_success ["AAPL"; "XYZ"] Demo.jan1 Demo.jan3
              Doubled.empty_state) as (_ & _ & Hsome & _).
  split; [|split].
  - intros o Ho.
    change (outcomes 0 2 ["AAPL"; "XYZ"] Demo.jan1 Demo.jan3
              (advance 0 [Printed Initiating] Doubled.empty_state))
      with [ ("AAPL", snd (List.hd ("", None)
                             (outcomes 0 2 ["AAPL"; "XYZ"] Demo.jan1 Demo.jan3
                                (advance 0 [Printed Initiating] Doubled.empty_state))));
             ("XYZ", snd (List.hd ("", None) (List.tl
                             (outcomes 0 2 ["AAPL"; "XYZ"] Demo.jan1 Demo.jan3
                                (advance 0 [Printed Initiating] Doubled.empty_state))))) ]
      in Ho.
    destruct Ho as [<-|[<-|[]]]; discriminate.
  - rewrite Hsome; [reflexivity|].
    eexists. split; [left; reflexivity|discriminate].
  - eexists. reflexivity.
Defined.

End DoubledRuns.
